(** * REST products backend: router, validation gate, handlers and server

    A shallow embedding of the Express application of this repository:
    - [src/router.ts]: the route table of [/api/products] with its
      express-validator rules;
    - [src/server.ts]: [connectDB], the CORS allow-list and the middleware
      stack of the server.

    The JavaScript values that flow through the validation rules are
    modelled first (module [JS]), then the predicates of validator.js and
    the chains of express-validator that the router calls, then the product
    table, the middleware, the handlers, the router and the server. *)

From Stdlib Require Import ZArith Ascii String List Lia DecimalString.
From Stdlib Require Import DecimalFacts DecimalPos.
From stdpp Require Import base option gmap strings list sorting.

Local Open Scope string_scope.
Local Open Scope Z_scope.

(** ** JavaScript values *)

Module JS.

(** A JavaScript number. A finite number [Fin m e] is the decimal
    [m * 10^e]. The range of IEEE-754 doubles is modelled where text is
    converted ([to_double]): a literal too small in magnitude is zero, one
    too large is infinite. Inside the range the decimal of the literal is
    kept; rounding to the nearest double changes neither its sign nor
    whether it is zero. *)
Inductive Number :=
  | NaN
  | Inf (negative : bool)
  | Fin (m e : Z).

(** The values that a field of a JSON body or a route parameter can hold,
    and [VUndefined] for a field that is absent. A number is the value
    that the body holds once parsed. Text is a sequence of UTF-8 bytes. An
    object is kept without its members: neither its text form nor its
    number depends on them. *)
#[warnings="-register-all"]
Inductive Value :=
  | VUndefined
  | VNull
  | VBool (b : bool)
  | VNum (n : Number)
  | VStr (s : string)
  | VArr (l : list Value)
  | VObj.

(** *** Characters and digit strings *)

Definition is_digit (c : ascii) : bool :=
  let n := N_of_ascii c in ((48 <=? n) && (n <=? 57))%N.

Definition digit_val (c : ascii) : Z := Z.of_N (N_of_ascii c) - 48.

(** Longest prefix of decimal digits, and the rest. *)
Fixpoint span_digits (s : string) : string * string :=
  match s with
  | String c r =>
      if is_digit c then let (d, t) := span_digits r in (String c d, t)
      else ("", s)
  | EmptyString => ("", "")
  end.

Fixpoint digits_value_from (acc : Z) (s : string) : Z :=
  match s with
  | String c r => digits_value_from (10 * acc + digit_val c) r
  | EmptyString => acc
  end.

(** Value of a string of decimal digits. *)
Definition digits_value (s : string) : Z := digits_value_from 0 s.

(** Decimal digits of a natural number, most significant first. *)
Definition decimal_digits (n : Z) : string :=
  NilZero.string_of_uint (N.to_uint (Z.to_N n)).

Fixpoint zeros (n : nat) : string :=
  match n with
  | O => ""
  | S k => String "0" (zeros k)
  end.

(** Drops the leading zeros of a digit string and counts them. *)
Fixpoint drop_zeros (s : string) : string * nat :=
  match s with
  | String "0" r => let (t, k) := drop_zeros r in (t, S k)
  | _ => (s, O)
  end.

(** Drops the trailing zeros of a digit string and counts them. *)
Definition strip_trailing_zeros (s : string) : string * nat :=
  let (t, k) := drop_zeros (String.rev s) in (String.rev t, k).

Fixpoint take_str (n : nat) (s : string) : string :=
  match n, s with
  | S k, String c r => String c (take_str k r)
  | _, _ => ""
  end.

Fixpoint drop_str (n : nat) (s : string) : string :=
  match n, s with
  | S k, String c r => drop_str k r
  | _, _ => s
  end.

(** *** Number::toString (radix 10)

    With [s] the significant digits of the number, [k] their count and [n]
    such that the number is [0.s * 10^n]: plain digits when [k <= n <= 21],
    a decimal point inside when [0 < n <= 21], leading ["0."] when
    [-6 < n <= 0], and exponent notation otherwise. *)
Definition positive_to_string (m e : Z) : string :=
  let (s, z) := strip_trailing_zeros (decimal_digits m) in
  let k := Z.of_nat (String.length s) in
  let n := e + Z.of_nat z + k in
  if (k <=? n) && (n <=? 21) then
    s ++ zeros (Z.to_nat (n - k))
  else if (0 <? n) && (n <=? 21) then
    take_str (Z.to_nat n) s ++ "." ++ drop_str (Z.to_nat n) s
  else if (-6 <? n) && (n <=? 0) then
    "0." ++ zeros (Z.to_nat (- n)) ++ s
  else
    let sign := if n - 1 <? 0 then "-" else "+" in
    let ex := decimal_digits (Z.abs (n - 1)) in
    if k =? 1 then s ++ "e" ++ sign ++ ex
    else take_str 1 s ++ "." ++ drop_str 1 s ++ "e" ++ sign ++ ex.

Definition NumberToString (x : Number) : string :=
  match x with
  | NaN => "NaN"
  | Inf false => "Infinity"
  | Inf true => "-Infinity"
  | Fin m e =>
      if m =? 0 then "0"
      else if m <? 0 then "-" ++ positive_to_string (- m) e
      else positive_to_string m e
  end.

(** *** StringToNumber

    White space of the StrWhiteSpaceChar production. Strings are sequences
    of UTF-8 bytes, so a white-space character takes one to three bytes. *)
Definition is_ws1 (x : N) : bool :=
  ((x =? 9) || (x =? 10) || (x =? 11) || (x =? 12) || (x =? 13) || (x =? 32))%N.

(** U+00A0. *)
Definition is_ws2 (x y : N) : bool := ((x =? 194) && (y =? 160))%N.

(** U+1680, U+2000..U+200A, U+2028, U+2029, U+202F, U+205F, U+3000, U+FEFF. *)
Definition is_ws3 (x y z : N) : bool :=
  ((x =? 225) && (y =? 154) && (z =? 128)
   || (x =? 226) && (y =? 128)
      && ((128 <=? z) && (z <=? 138) || (z =? 168) || (z =? 169) || (z =? 175))
   || (x =? 226) && (y =? 129) && (z =? 159)
   || (x =? 227) && (y =? 128) && (z =? 128)
   || (x =? 239) && (y =? 187) && (z =? 191))%N.

(** Number of bytes of the white-space character at the head of [s], 0 when
    there is none; [back] reads the bytes of a reversed string. *)
Definition ws_len (back : bool) (s : string) : nat :=
  match s with
  | String a r =>
      if is_ws1 (N_of_ascii a) then 1%nat
      else match r with
      | String b r2 =>
          let x := N_of_ascii (if back then b else a) in
          let y := N_of_ascii (if back then a else b) in
          if is_ws2 x y then 2%nat
          else match r2 with
          | String c _ =>
              let x := N_of_ascii (if back then c else a) in
              let y := N_of_ascii b in
              let z := N_of_ascii (if back then a else c) in
              if is_ws3 x y z then 3%nat else 0%nat
          | EmptyString => 0%nat
          end
      | EmptyString => 0%nat
      end
  | EmptyString => 0%nat
  end.

Fixpoint skip_ws (fuel : nat) (back : bool) (s : string) : string :=
  match fuel with
  | O => s
  | S f =>
      match ws_len back s with
      | O => s
      | n => skip_ws f back (drop_str n s)
      end
  end.

(** String.prototype.trim. *)
Definition trim (s : string) : string :=
  let t := skip_ws (String.length s) false s in
  String.rev (skip_ws (String.length t) true (String.rev t)).

Definition is_hex_digit (c : ascii) : bool :=
  let n := N_of_ascii c in
  ((48 <=? n) && (n <=? 57) || (65 <=? n) && (n <=? 70) || (97 <=? n) && (n <=? 102))%N.

Definition hex_digit_val (c : ascii) : Z :=
  let n := Z.of_N (N_of_ascii c) in
  if n <=? 57 then n - 48 else if n <=? 70 then n - 55 else n - 87.

(** Value of a non-empty string of digits of the given radix, [None] when a
    character is not a digit of that radix. *)
Fixpoint radix_value (radix acc : Z) (s : string) : option Z :=
  match s with
  | String c r =>
      if is_hex_digit c && (hex_digit_val c <? radix)
      then radix_value radix (radix * acc + hex_digit_val c) r
      else None
  | EmptyString => Some acc
  end.

(** NonDecimalIntegerLiteral: [0x], [0o], [0b] and their capitals. *)
Definition parse_nondecimal (s : string) : option Number :=
  match s with
  | String "0" (String p (String c r)) =>
      let radix :=
        if (p =? "x")%char || (p =? "X")%char then Some 16
        else if (p =? "o")%char || (p =? "O")%char then Some 8
        else if (p =? "b")%char || (p =? "B")%char then Some 2
        else None in
      match radix with
      | Some b => (fun v => Fin v 0) <$> radix_value b 0 (String c r)
      | None => None
      end
  | _ => None
  end.

Definition split_sign (s : string) : bool * string :=
  match s with
  | String "+" r => (false, r)
  | String "-" r => (true, r)
  | _ => (false, s)
  end.

Definition signed (negative : bool) (v : Z) : Z := if negative then - v else v.

(** ExponentPart after the mantissa: nothing, or [e]/[E], a sign and digits. *)
Definition parse_exponent (s : string) : option Z :=
  match s with
  | EmptyString => Some 0
  | String c r =>
      if (c =? "e")%char || (c =? "E")%char then
        let (neg, r1) := split_sign r in
        let (ds, rest) := span_digits r1 in
        match ds, rest with
        | String _ _, EmptyString => Some (signed neg (digits_value ds))
        | _, _ => None
        end
      else None
  end.

(** StrDecimalLiteral: a sign, then [Infinity] or digits with an optional
    fraction and exponent; at least one digit in the mantissa. *)
Definition parse_decimal (s : string) : option Number :=
  let (neg, r) := split_sign s in
  if (r =? "Infinity")%string then Some (Inf neg)
  else
    let (ip, r1) := span_digits r in
    let (fp, r2) :=
      match r1 with
      | String "." t => span_digits t
      | _ => ("", r1)
      end in
    match ip ++ fp with
    | EmptyString => None
    | String _ _ as ds =>
        (fun ex => Fin (signed neg (digits_value ds))
                       (ex - Z.of_nat (String.length fp)))
        <$> parse_exponent r2
    end.

(** *** The range of doubles

    The nearest double of a real [x] is zero when [|x| <= 2^-1075], half
    the smallest positive double, and infinite when
    [|x| >= 2^1024 - 2^970], half way between the largest double and
    [2^1024]. *)
Definition underflows (m e : Z) : bool :=
  if 0 <=? e then m =? 0 else Z.abs m * 2 ^ 1075 <=? 10 ^ (- e).

Definition overflows (m e : Z) : bool :=
  if 0 <=? e then 2 ^ 1024 - 2 ^ 970 <=? Z.abs m * 10 ^ e
  else (2 ^ 1024 - 2 ^ 970) * 10 ^ (- e) <=? Z.abs m.

Definition to_double (x : Number) : Number :=
  match x with
  | Fin m e =>
      if underflows m e then Fin 0 0
      else if overflows m e then Inf (m <? 0)
      else Fin m e
  | _ => x
  end.

Definition StringToNumber (s : string) : Number :=
  match trim s with
  | EmptyString => Fin 0 0
  | t =>
      to_double
        match parse_nondecimal t with
        | Some n => n
        | None => default NaN (parse_decimal t)
        end
  end.

(** *** Conversions and comparison *)

(** The function [String(value)]. An array is its elements joined with
    commas, where [undefined] and [null] elements are empty. *)
Fixpoint ToString (v : Value) : string :=
  match v with
  | VUndefined => "undefined"
  | VNull => "null"
  | VBool b => if b then "true" else "false"
  | VNum n => NumberToString n
  | VStr s => s
  | VArr l =>
      (fix join (l : list Value) : string :=
         match l with
         | [] => ""
         | x :: r =>
             match x with VUndefined | VNull => "" | _ => ToString x end
             ++ match r with [] => "" | _ :: _ => "," ++ join r end
         end) l
  | VObj => "[object Object]"
  end.

(** An array or an object is converted through its text form. *)
Definition ToNumber (v : Value) : Number :=
  match v with
  | VUndefined => NaN
  | VNull => Fin 0 0
  | VBool b => if b then Fin 1 0 else Fin 0 0
  | VNum n => n
  | VStr s => StringToNumber s
  | VArr _ | VObj => StringToNumber (ToString v)
  end.

Definition isNaN (v : Value) : bool :=
  match ToNumber v with NaN => true | _ => false end.

(** [x < y] on numbers; false when either is NaN. Finite numbers are
    compared at their common exponent. *)
Definition number_lt (x y : Number) : bool :=
  match x, y with
  | NaN, _ | _, NaN => false
  | Inf true, Inf true => false
  | Inf true, _ => true
  | _, Inf true => false
  | Inf false, _ => false
  | _, Inf false => true
  | Fin m1 e1, Fin m2 e2 =>
      let e := Z.min e1 e2 in
      m1 * 10 ^ (e1 - e) <? m2 * 10 ^ (e2 - e)
  end.

(** [value > n] and [value <= n] for a number [n]: the other operand is
    converted with ToNumber. *)
Definition gt (value : Value) (n : Number) : bool := number_lt n (ToNumber value).

Definition le (value : Value) (n : Number) : bool :=
  match ToNumber value, n with
  | NaN, _ | _, NaN => false
  | x, y => negb (number_lt y x)
  end.

End JS.


(** ** validator.js: the string predicates behind the rules *)

Module validator.

(** [isEmpty(str)]: the length is zero (white space is not ignored). *)
Definition isEmpty (str : string) : bool := (String.length str =? 0)%nat.

Definition all_digits (s : string) : bool :=
  match JS.span_digits s with
  | (_, EmptyString) => true
  | _ => false
  end.

(** [isNumeric(str)]: an optional sign, optionally digits and a point,
    then at least one digit up to the end; no exponent and no white space. *)
Definition isNumeric (str : string) : bool :=
  let (_, r) := JS.split_sign str in
  let (d1, r1) := JS.span_digits r in
  match r1 with
  | EmptyString => negb (isEmpty d1)
  | String "." t => negb (isEmpty t) && all_digits t
  | _ => false
  end.

(** [isInt(str)] without options: an optional sign, then one digit or
    more up to the end; leading zeros are allowed. *)
Definition isInt (str : string) : bool :=
  let (_, r) := JS.split_sign str in
  negb (isEmpty r) && all_digits r.

(** [isBoolean(str)]: one of the strict boolean spellings. *)
Definition isBoolean (str : string) : bool :=
  bool_decide (str ∈ ["true"; "false"; "1"; "0"]).

End validator.

(** ** The product table *)

Module Store.

(** A row of the products table, without its key. *)
Record Product := {
  name : string;
  price : JS.Number;
  availability : bool
}.

(** The table: the rows by [id], and the next value of the key sequence. *)
Record Table := {
  rows : gmap Z Product;
  next_id : Z
}.

Definition empty : Table := {| rows := ∅; next_id := 1 |}.

Definition with_rows (t : Table) (r : gmap Z Product) : Table :=
  {| rows := r; next_id := next_id t |}.

End Store.

(** ** Requests, responses and middleware *)

Module Express.

(** The verbs of the requests that the routes can see. [OPTIONS] is not
    among them: the CORS middleware answers it by itself. *)
Inductive Method := GET | HEAD | POST | PUT | PATCH | DELETE.

(** One validation failure as the gate reports it. *)
Record FieldError := {
  field : string;
  message : string
}.

Record Request := {
  method : Method;
  (** the segments of the URL path, that is, the texts that follow each of
      its slashes: [/api/products/7] is [api; products; 7], and a slash at
      the end leaves an empty last segment *)
  path : list string;
  (** [req.headers.origin] *)
  origin : option string;
  (** [req.params], filled in by the route that matches *)
  params : gmap string string;
  (** [req.body], the parsed JSON object *)
  body : gmap string JS.Value;
  (** the failures that the validation chains have recorded on the request *)
  validation_errors : list FieldError
}.

Inductive Payload :=
  | Products (ps : list (Z * Store.Product))
  | OneProduct (id : Z) (p : Store.Product)
  | Message (text : string)
  | Errors (errs : list FieldError)
  | NotFound
  | ServerError (text : string).

Record Response := {
  status : Z;
  payload : Payload
}.

(** What a middleware does with a request: pass it on ([next()]), answer
    it, or fail ([next(err)]). The table is threaded through. *)
Inductive Outcome :=
  | Next (req : Request) (t : Store.Table)
  | Respond (res : Response) (t : Store.Table)
  | Throw (err : string) (t : Store.Table).

Definition Middleware := Request -> Store.Table -> Outcome.

(** The middleware of a stack run in order until one answers or fails. *)
Fixpoint run (stack : list Middleware) (req : Request) (t : Store.Table) : Outcome :=
  match stack with
  | [] => Next req t
  | m :: rest =>
      match m req t with
      | Next req' t' => run rest req' t'
      | out => out
      end
  end.

Definition table_of (o : Outcome) : Store.Table :=
  match o with
  | Next _ t | Respond _ t | Throw _ t => t
  end.

Definition response_of (o : Outcome) : option Response :=
  match o with
  | Respond res _ => Some res
  | _ => None
  end.

Definition set_params (req : Request) (p : gmap string string) : Request :=
  {| method := method req; path := path req; origin := origin req;
     params := p; body := body req;
     validation_errors := validation_errors req |}.

Definition set_path (req : Request) (p : list string) : Request :=
  {| method := method req; path := p; origin := origin req;
     params := params req; body := body req;
     validation_errors := validation_errors req |}.

Definition add_errors (req : Request) (errs : list FieldError) : Request :=
  {| method := method req; path := path req; origin := origin req;
     params := params req; body := body req;
     validation_errors := validation_errors req ++ errs |}.

#[global] Instance Method_eq_dec : EqDecision Method.
Proof. solve_decision. Defined.

End Express.

(** ** express-validator: validation chains *)

Module ExpressValidator.
Import Express.

(** [toString] of express-validator (version 7), which every standard
    validator applies to a value before the validator.js predicate: an
    array or an object gives its own [toString()];
    [value == null || (isNaN(value) && !value.length)] gives the empty
    string; anything else [String(value)]. *)
Definition has_length (value : JS.Value) : bool :=
  match value with
  | JS.VStr s => negb (String.length s =? 0)%nat
  | _ => false
  end.

Definition is_nullish (value : JS.Value) : bool :=
  match value with
  | JS.VUndefined | JS.VNull => true
  | _ => false
  end.

Definition toString (value : JS.Value) : string :=
  match value with
  | JS.VArr _ | JS.VObj => JS.ToString value
  | _ =>
      if is_nullish value || (JS.isNaN value && negb (has_length value)) then ""
      else JS.ToString value
  end.

(** The values that a standard validator checks: the elements of an array
    one by one, any other value itself. *)
Definition values_of (value : JS.Value) : list JS.Value :=
  match value with
  | JS.VArr l => l
  | _ => [value]
  end.

(** An item of a chain with the message given by [withMessage]: a standard
    validator (a validator.js predicate on the string form, possibly
    negated) or a custom one (a function of the raw value). *)
Inductive ContextItem :=
  | StandardValidation (validator : string -> bool) (negated : bool) (msg : string)
  | CustomValidation (validator : JS.Value -> bool) (msg : string).

Inductive Location := InBody | InParams.

Record ValidationChain := {
  location : Location;
  chain_field : string;
  items : list ContextItem
}.

Definition isInt := StandardValidation validator.isInt false.
Definition isNumeric := StandardValidation validator.isNumeric false.
Definition isBoolean := StandardValidation validator.isBoolean false.
Definition notEmpty := StandardValidation validator.isEmpty true.
Definition custom := CustomValidation.

Definition body (f : string) (its : list ContextItem) : ValidationChain :=
  {| location := InBody; chain_field := f; items := its |}.

Definition param (f : string) (its : list ContextItem) : ValidationChain :=
  {| location := InParams; chain_field := f; items := its |}.

(** The value a chain validates. *)
Definition select (c : ValidationChain) (req : Request) : JS.Value :=
  match location c with
  | InBody => default JS.VUndefined (Express.body req !! chain_field c)
  | InParams => from_option JS.VStr JS.VUndefined (params req !! chain_field c)
  end.

(** Whether a standard validator rejects one value: an error is added
    when [negated ? result : !result]. *)
Definition rejects (v : string -> bool) (negated : bool) (value : JS.Value) : bool :=
  let result := v (toString value) in
  if negated then result else negb result.

(** Whether an item rejects the value of the field. A standard validator
    runs on each of [values_of]; a custom one runs once on the value as it
    is and rejects it when its result is falsy. *)
Definition fails (item : ContextItem) (value : JS.Value) : bool :=
  match item with
  | StandardValidation v negated _ => existsb (rejects v negated) (values_of value)
  | CustomValidation v _ => negb (v value)
  end.

Definition item_message (item : ContextItem) : string :=
  match item with
  | StandardValidation _ _ m | CustomValidation _ m => m
  end.

(** The failures that an item records: a standard validator one for each
    value it rejects, a custom one at most one. *)
Definition item_errors (f : string) (item : ContextItem) (value : JS.Value)
  : list FieldError :=
  let err := {| field := f; message := item_message item |} in
  match item with
  | StandardValidation v negated _ =>
      omap (fun x => if rejects v negated x then Some err else None)
           (values_of value)
  | CustomValidation v _ => if v value then [] else [err]
  end.

(** Every item of the chain runs (there is no [bail]). *)
Definition chain_errors (c : ValidationChain) (req : Request) : list FieldError :=
  let value := select c req in
  flat_map (fun item => item_errors (chain_field c) item value) (items c).

(** A chain used as a middleware records its failures on the request and
    passes it on. *)
Definition validate (c : ValidationChain) : Middleware :=
  fun req t => Next (add_errors req (chain_errors c req)) t.

End ExpressValidator.

(** ** The validation-error gate *)

Module Middleware.
Import Express.

(** Modelled from the spec: [handleInputErrors] of [src/middleware/index.ts]
    is not among the sources. Given the failures accumulated on the
    request, a non-empty list is answered at once with status 400 and the
    list of field/message pairs, and the downstream handler is not called;
    otherwise the request is passed on unchanged. *)
Definition handleInputErrors : Middleware :=
  fun req t =>
    match validation_errors req with
    | [] => Next req t
    | errs => Respond {| status := 400; payload := Errors errs |} t
    end.

End Middleware.

(** ** The handlers *)

Module Handlers.
Import Express Store.

(** Decimal integer that a key in text form denotes. *)
Definition int_of_string (s : string) : option Z :=
  if validator.isInt s then
    let (neg, ds) := JS.split_sign s in Some (JS.signed neg (JS.digits_value ds))
  else None.

(** Modelled from the spec: the handlers of [src/handlers/product.ts] and
    the table they use are not among the sources; each definition below
    follows the row of the handler table of the spec for its operation.
    "Fetch one row by id": the key is the route parameter [id]. *)
Definition findByPk (req : Request) (t : Table) : option (Z * Product) :=
  i ← params req !! "id" ≫= int_of_string;
  p ← rows t !! i;
  Some (i, p).

Definition body_field (req : Request) (f : string) : JS.Value :=
  default JS.VUndefined (body req !! f).

(** Modelled from the spec: the column values that the table keeps for the
    body fields ([name] is text, [price] numeric, [availability]
    boolean). The spec does not say what becomes of a field that is an
    array or an object; the conversions of JavaScript stand in for it. *)
Definition name_of (v : JS.Value) : string := JS.ToString v.
Definition price_of (v : JS.Value) : JS.Number := JS.ToNumber v.
Definition availability_of (v : JS.Value) : bool :=
  bool_decide (ExpressValidator.toString v ∈ ["true"; "1"]).

Definition by_id : relation (Z * Product) := fun a b => a.1 <= b.1.

#[global] Instance by_id_dec : RelDecision by_id.
Proof. intros a b. unfold by_id. apply _. Defined.

#[global] Instance by_id_trans : Transitive by_id.
Proof. intros a b c. unfold by_id. lia. Qed.

#[global] Instance by_id_total : Total by_id.
Proof. intros a b. unfold by_id. lia. Qed.

(** Modelled from the spec: list. "Fetch all rows, ordered by id
    ascending"; 200 with the array of products. *)
Definition getProducts : Middleware :=
  fun req t =>
    Respond {| status := 200;
               payload := Products (merge_sort by_id (map_to_list (rows t))) |} t.

(** Modelled from the spec: get by id. 200 with the product, 404 if no row
    matches. *)
Definition getProductById : Middleware :=
  fun req t =>
    match findByPk req t with
    | Some (i, p) => Respond {| status := 200; payload := OneProduct i p |} t
    | None => Respond {| status := 404; payload := NotFound |} t
    end.

(** Modelled from the spec: create. "Insert new row, availability defaults
    true"; the key is assigned by the table; 201 with the created
    product. *)
Definition createProduct : Middleware :=
  fun req t =>
    let p := {| name := name_of (body_field req "name");
                price := price_of (body_field req "price");
                availability := true |} in
    let i := next_id t in
    Respond {| status := 201; payload := OneProduct i p |}
            {| rows := <[i := p]> (rows t); next_id := i + 1 |}.

(** Modelled from the spec: update. "Fetch row by id; if absent return
    404; else overwrite all fields and persist"; 200 with the updated
    product. *)
Definition updateProduct : Middleware :=
  fun req t =>
    match findByPk req t with
    | Some (i, _) =>
        let p := {| name := name_of (body_field req "name");
                    price := price_of (body_field req "price");
                    availability := availability_of (body_field req "availability") |} in
        Respond {| status := 200; payload := OneProduct i p |}
                (with_rows t (<[i := p]> (rows t)))
    | None => Respond {| status := 404; payload := NotFound |} t
    end.

Definition toggle (p : Product) : Product :=
  {| name := name p; price := price p; availability := negb (availability p) |}.

(** Modelled from the spec: patch availability. "Fetch row by id; if
    absent return 404; else toggle availability to its logical negation
    and persist"; 200 with the updated product. *)
Definition updateAvailability : Middleware :=
  fun req t =>
    match findByPk req t with
    | Some (i, p) =>
        Respond {| status := 200; payload := OneProduct i (toggle p) |}
                (with_rows t (<[i := toggle p]> (rows t)))
    | None => Respond {| status := 404; payload := NotFound |} t
    end.

(** Modelled from the spec: delete. "Fetch row by id; if absent return
    404; else remove row"; 200 with a confirmation message. *)
Definition deleteProduct : Middleware :=
  fun req t =>
    match findByPk req t with
    | Some (i, _) =>
        Respond {| status := 200; payload := Message "Producto Eliminado" |}
                (with_rows t (delete i (rows t)))
    | None => Respond {| status := 404; payload := NotFound |} t
    end.

End Handlers.

(** ** The router of [/api/products] *)

Module Router.
Import Express ExpressValidator Middleware Handlers.

(** A route pattern of the router: ['/'] or ['/:id']. *)
Inductive Pattern := Root | WithId.

Record Route := {
  verb : Method;
  pattern : Pattern;
  stack : list Express.Middleware
}.

(** A pattern matches the path below the mount point; ['/:id'] binds the
    single segment, which is not empty, to [req.params.id]. Routing is not
    strict: one slash at the end of the path, which leaves an empty last
    segment, is allowed. The segment is bound as it is written: the
    decoding of percent escapes is not modelled. *)
Definition match_path (pat : Pattern) (req : Request) : option Request :=
  match pat, path req with
  | Root, [] | Root, [""] => Some (set_params req ∅)
  | WithId, [s] | WithId, [s; ""] =>
      if (s =? "")%string then None else Some (set_params req {[ "id" := s ]})
  | _, _ => None
  end.

(** A route handles the requests of its verb; a [HEAD] request is handled
    by the [GET] routes, the router having no route for [HEAD]. *)
Definition handles (v m : Method) : bool :=
  bool_decide (v = m) || bool_decide (v = GET) && bool_decide (m = HEAD).

Definition matches (r : Route) (req : Request) : option Request :=
  if handles (verb r) (method req) then match_path (pattern r) req else None.

(** The routes are tried in order; a stack that ends with [next()] lets the
    following routes see the request. *)
Fixpoint dispatch (routes : list Route) (req : Request) (t : Store.Table) : Outcome :=
  match routes with
  | [] => Next req t
  | r :: rest =>
      match matches r req with
      | Some req' =>
          match run (stack r) req' t with
          | Next _ t' => dispatch rest req t'
          | out => out
          end
      | None => dispatch rest req t
      end
  end.

Definition get (pat : Pattern) (ms : list Express.Middleware) : Route :=
  {| verb := GET; pattern := pat; stack := ms |}.
Definition post (pat : Pattern) (ms : list Express.Middleware) : Route :=
  {| verb := POST; pattern := pat; stack := ms |}.
Definition put (pat : Pattern) (ms : list Express.Middleware) : Route :=
  {| verb := PUT; pattern := pat; stack := ms |}.
Definition patch (pat : Pattern) (ms : list Express.Middleware) : Route :=
  {| verb := PATCH; pattern := pat; stack := ms |}.
Definition delete (pat : Pattern) (ms : list Express.Middleware) : Route :=
  {| verb := DELETE; pattern := pat; stack := ms |}.

(** The rules of the router, as they are written on its routes. *)
Definition id_rule : ValidationChain :=
  param "id" [isInt "ID no Válido"].

Definition name_rule : ValidationChain :=
  body "name" [notEmpty "El nombre de Producto no puede ir vacio"].

Definition price_rule : ValidationChain :=
  body "price"
    [isNumeric "Precio no valido";
     notEmpty "El precio de Producto no puede ir vacio";
     custom (fun value => JS.gt value (JS.Fin 0 0)) "Precio no valido"].

Definition availability_rule : ValidationChain :=
  body "availability" [isBoolean "Valor para Disponibilidad no valido"].

Definition routes : list Route :=
  [ get Root [getProducts];
    get WithId [validate id_rule; handleInputErrors; getProductById];
    post Root
      [validate name_rule; validate price_rule; handleInputErrors; createProduct];
    put WithId
      [validate id_rule; validate name_rule; validate price_rule;
       validate availability_rule; handleInputErrors; updateProduct];
    patch WithId [validate id_rule; handleInputErrors; updateAvailability];
    delete WithId [validate id_rule; handleInputErrors; deleteProduct] ].

Definition router : Express.Middleware := dispatch routes.

End Router.

(** ** The server *)

Module Server.
Import Express.

(** *** [connectDB]

    The effects of the start-up code: calls on the database object, lines
    on the console and the end of the process, recorded in a world that
    the computation threads through; a computation ends normally or
    throws. *)
Record LogLine := {
  colour : string;
  bold : bool;
  text : string
}.

Record World := {
  (** whether the database accepts connections *)
  db_reachable : bool;
  (** calls of [db.authenticate] so far *)
  authenticate_calls : nat;
  (** calls of [db.sync] so far *)
  sync_calls : nat;
  (** lines written with [console.log] *)
  console : list LogLine;
  (** whether the process has been ended *)
  exited : bool
}.

Inductive Result (A : Type) :=
  | Ok (a : A)
  | Thrown (error : string).
Arguments Ok {A} a.
Arguments Thrown {A} error.

Definition IO (A : Type) : Type := World -> Result A * World.

Definition ret {A} (a : A) : IO A := fun w => (Ok a, w).

Definition bind {A B} (m : IO A) (k : A -> IO B) : IO B :=
  fun w =>
    match m w with
    | (Ok a, w') => k a w'
    | (Thrown e, w') => (Thrown e, w')
    end.

(** [try { m } catch (error) { h error }]. *)
Definition try_catch {A} (m : IO A) (h : string -> IO A) : IO A :=
  fun w =>
    match m w with
    | (Ok a, w') => (Ok a, w')
    | (Thrown e, w') => h e w'
    end.

Notation "m >>> k" := (bind m (fun _ => k)) (at level 90, right associativity).

(** [await db.authenticate()]: one connection attempt; it throws when the
    database cannot be reached. *)
Definition db_authenticate : IO unit :=
  fun w =>
    let w' := {| db_reachable := db_reachable w;
                 authenticate_calls := S (authenticate_calls w);
                 sync_calls := sync_calls w;
                 console := console w;
                 exited := exited w |} in
    if db_reachable w then (Ok tt, w') else (Thrown "SequelizeConnectionError", w').

(** [db.sync()], started and not awaited. *)
Definition db_sync : IO unit :=
  fun w =>
    (Ok tt, {| db_reachable := db_reachable w;
               authenticate_calls := authenticate_calls w;
               sync_calls := S (sync_calls w);
               console := console w;
               exited := exited w |}).

Definition console_log (l : LogLine) : IO unit :=
  fun w =>
    (Ok tt, {| db_reachable := db_reachable w;
               authenticate_calls := authenticate_calls w;
               sync_calls := sync_calls w;
               console := console w ++ [l];
               exited := exited w |}).

(** [colors.red.bold(s)]. *)
Definition red_bold (s : string) : LogLine :=
  {| colour := "red"; bold := true; text := s |}.

Definition connectDB : IO unit :=
  try_catch
    (db_authenticate >>> db_sync)
    (fun error => console_log (red_bold "Hubo un error al conectar a la BD")).

(** *** The CORS options and the middleware stack *)

Section App.

(** [process.env.FRONTEND_URL], which may be unset. *)
Variable FRONTEND_URL : option string.

Definition whitelist : list (option string) :=
  [FRONTEND_URL; Some "http://localhost:5173"].

(** [!origin]: the header is absent or empty. *)
Definition is_falsy (origin : option string) : bool :=
  match origin with
  | None => true
  | Some s => (String.length s =? 0)%nat
  end.

Definition includes (l : list (option string)) (x : option string) : bool :=
  bool_decide (x ∈ l).

(** What the origin function passes to its callback: [callback(null, true)]
    or [callback(new Error(..))]. The line it writes to the console before
    an error is not recorded. *)
Inductive Callback :=
  | Allow
  | Deny (error : string).

Definition corsOptions_origin (origin : option string) : Callback :=
  if is_falsy origin || includes whitelist origin then Allow
  else Deny "Error de cors".

(** [cors(corsOptions)]: the request goes on when the origin function
    allows it and fails with its error otherwise. *)
Definition cors : Middleware :=
  fun req t =>
    match corsOptions_origin (origin req) with
    | Allow => Next req t
    | Deny e => Throw e t
    end.

(** [express.json()] and [morgan('dev')] pass the request on: the body of a
    request is already its parsed form, and the access log is not
    recorded. *)
Definition express_json : Middleware := Next.
Definition morgan : Middleware := Next.

(** Mount paths are matched without regard to the case of the letters
    [A] to [Z]. *)
Definition lower (c : ascii) : ascii :=
  let n := N_of_ascii c in
  if ((65 <=? n) && (n <=? 90))%N then ascii_of_N (n + 32) else c.

Fixpoint lower_case (s : string) : string :=
  match s with
  | String c r => String (lower c) (lower_case r)
  | EmptyString => ""
  end.

Definition same_segment (a b : string) : bool :=
  (lower_case a =? lower_case b)%string.

Fixpoint strip_prefix (prefix p : list string) : option (list string) :=
  match prefix, p with
  | [], _ => Some p
  | a :: prefix', b :: p' => if same_segment a b then strip_prefix prefix' p' else None
  | _ :: _, [] => None
  end.

(** [server.use(prefix, m)]: [m] sees the requests below [prefix], with the
    prefix taken off their path. *)
Definition use_at (prefix : list string) (m : Middleware) : Middleware :=
  fun req t =>
    match strip_prefix prefix (path req) with
    | Some rest =>
        match m (set_path req rest) t with
        | Next _ t' => Next req t'
        | out => out
        end
    | None => Next req t
    end.

(** The middleware after the CORS check, over the ones mounted at
    [/api/products] and at [/docs]. *)
Definition routing (products docs : Middleware) : list Middleware :=
  [express_json; morgan;
   use_at ["api"; "products"] products;
   use_at ["docs"] docs].

(** The stack of the server, in the order of its [server.use] calls. *)
Definition stack (products docs : Middleware) : list Middleware :=
  cors :: routing products docs.

(** The answer to the client: the response of the stack, the error response
    of Express (500) when a middleware failed, its not-found response
    (404) when none answered. *)
Definition finish (o : Outcome) : Response * Store.Table :=
  match o with
  | Respond res t' => (res, t')
  | Throw e t' => ({| status := 500; payload := ServerError e |}, t')
  | Next _ t' => ({| status := 404; payload := NotFound |}, t')
  end.

Definition application (products docs : Middleware)
    (req : Request) (t : Store.Table) : Response * Store.Table :=
  finish (run (stack products docs) req t).

(** The documentation UI served at [/docs]. *)
Variable swaggerUI : Middleware.

Definition server : Request -> Store.Table -> Response * Store.Table :=
  application Router.router swaggerUI.

End App.

End Server.

(** ** Vocabulary of the properties *)

Module Props.
Import Express ExpressValidator Store.

(** The shape of a route with rules: its chains, the gate, the handler. *)
Definition guarded (rules : list ValidationChain) (handler : Express.Middleware)
    : list Express.Middleware :=
  map validate rules ++ [Middleware.handleInputErrors; handler].

(** The failures of all the rules declared on a route, in order. *)
Definition rule_failures (rules : list ValidationChain) (req : Request) : list FieldError :=
  flat_map (fun c => chain_errors c req) rules.

(** No item of any rule rejects its value. *)
Definition passes (rules : list ValidationChain) (req : Request) : bool :=
  forallb (fun c => forallb (fun it => negb (fails it (select c req))) (items c)) rules.

(** A request as it reaches the router: nothing validated yet. *)
Definition fresh (req : Request) : Prop := validation_errors req = [].

(** The name is empty: absent, null, the empty text or an empty array,
    that is, its text form is empty. *)
Definition empty_name (v : JS.Value) : bool := validator.isEmpty (toString v).

Definition is_array (v : JS.Value) : bool :=
  match v with
  | JS.VArr _ => true
  | _ => false
  end.

(** A predicate on text holds of the value as a standard validator sees
    it: of the text form of each element of an array, of the text form of
    any other value. *)
Definition standard_ok (p : string -> bool) (v : JS.Value) : bool :=
  forallb (fun x => p (toString x)) (values_of v).

(** The name passes the rule of the router: no text form is empty. *)
Definition name_given (v : JS.Value) : bool :=
  standard_ok (fun str => negb (validator.isEmpty str)) v.


(** The price passes the numeric rule: its text form is a plain decimal
    numeral (sign, digits, optional fraction; no exponent). *)
Definition plain_numeral (v : JS.Value) : bool := standard_ok validator.isNumeric v.

(** The availability is boolean for the rule of the update route. *)
Definition boolean_value (v : JS.Value) : bool := standard_ok validator.isBoolean v.

(** The text is a decimal numeral of the integer: an optional sign, any
    number of leading zeros, then the digits of the absolute value. The
    relation is given by writing the integer out, apart from the way the
    handlers read a key. *)
Inductive denotes : string -> Z -> Prop :=
  | denotes_plain k n :
      0 <= n -> denotes (JS.zeros k ++ JS.decimal_digits n) n
  | denotes_plus k n :
      0 <= n -> denotes ("+" ++ JS.zeros k ++ JS.decimal_digits n) n
  | denotes_minus k n :
      0 <= n -> denotes ("-" ++ JS.zeros k ++ JS.decimal_digits n) (- n).

Definition zero : JS.Number := JS.Fin 0 0.

(** The invariant of a stored product: a price above zero and a name that
    is not empty. *)
Definition valid_product (p : Product) : Prop :=
  JS.number_lt zero (price p) = true /\ name p <> "".

Definition table_valid (t : Table) : Prop :=
  forall i p, rows t !! i = Some p -> valid_product p.

(** The key sequence is ahead of every key in use. *)
Definition table_wf (t : Table) : Prop :=
  forall i, is_Some (rows t !! i) -> i < next_id t.

(** The failures that the rules of the router record. *)
Definition name_error : FieldError :=
  {| field := "name"; message := "El nombre de Producto no puede ir vacio" |}.
Definition price_error_numeric : FieldError :=
  {| field := "price"; message := "Precio no valido" |}.
Definition price_error_empty : FieldError :=
  {| field := "price"; message := "El precio de Producto no puede ir vacio" |}.
Definition availability_error : FieldError :=
  {| field := "availability"; message := "Valor para Disponibilidad no valido" |}.
Definition id_error : FieldError :=
  {| field := "id"; message := "ID no Válido" |}.

(** A middleware that always answers. *)
Definition responds (h : Express.Middleware) : Prop :=
  forall req t, exists res t', h req t = Respond res t'.

(** The parameters that the pattern ['/:id'] binds. *)
Definition id_param (s : string) : gmap string string := {[ "id" := s ]}.

(** What one request can do to the table: nothing, insert a valid product
    under the next key, overwrite a row with a valid product, toggle the
    availability of a row, or delete a row. *)
Inductive step (t : Table) : Table -> Prop :=
  | step_none : step t t
  | step_insert p :
      valid_product p ->
      step t {| rows := <[next_id t := p]> (rows t); next_id := next_id t + 1 |}
  | step_update i p0 p :
      rows t !! i = Some p0 -> valid_product p ->
      step t (with_rows t (<[i := p]> (rows t)))
  | step_toggle i p :
      rows t !! i = Some p ->
      step t (with_rows t (<[i := Handlers.toggle p]> (rows t)))
  | step_delete i :
      step t (with_rows t (delete i (rows t))).

(** The table after a sequence of requests to the router. *)
Definition after (reqs : list Request) (t : Table) : Table :=
  foldl (fun t req => table_of (Router.router req t)) t reqs.

End Props.

(** ** Sample requests and tables *)

Module Samples.
Import Express Store.

Definition request (m : Method) (p : list string) (b : gmap string JS.Value) : Request :=
  {| method := m; path := p; origin := None; params := ∅; body := b;
     validation_errors := [] |}.

(** [{name: "Monitor", price: 300}]. *)
Definition monitor : gmap string JS.Value :=
  {[ "name" := JS.VStr "Monitor"; "price" := JS.VNum (JS.Fin 300 0) ]}.


(** [{name: "Monitor", price: 0}] and [{name: "Monitor", price: "Hola"}]. *)
Definition monitor_free : gmap string JS.Value :=
  {[ "name" := JS.VStr "Monitor"; "price" := JS.VNum (JS.Fin 0 0) ]}.

Definition monitor_hola : gmap string JS.Value :=
  {[ "name" := JS.VStr "Monitor"; "price" := JS.VStr "Hola" ]}.

(** [{name: "", price: 0}]. *)
Definition nameless_free : gmap string JS.Value :=
  {[ "name" := JS.VStr ""; "price" := JS.VNum (JS.Fin 0 0) ]}.

(** [{name: [], price: [5]}]. *)
Definition array_fields : gmap string JS.Value :=
  {[ "name" := JS.VArr []; "price" := JS.VArr [JS.VNum (JS.Fin 5 0)] ]}.


Definition a_monitor : Product :=
  {| name := "Monitor"; price := JS.Fin 300 0; availability := true |}.

(** A table that holds one product, with key 1. *)
Definition one_product : Table :=
  {| rows := {[ 1 := a_monitor ]}; next_id := 2 |}.

Definition a_keyboard : Product :=
  {| name := "Teclado"; price := JS.Fin 455 (-1); availability := false |}.

Definition a_mouse : Product :=
  {| name := "Raton"; price := JS.Fin 12 0; availability := true |}.

(** A table that holds three products, stored under the keys 3, 1 and 12
    in that order. *)
Definition three_products : Table :=
  {| rows := <[12 := a_mouse]> (<[1 := a_monitor]> {[ 3 := a_keyboard ]});
     next_id := 13 |}.

Definition from_origin (o : option string) (req : Request) : Request :=
  {| method := method req; path := path req; origin := o;
     params := params req; body := body req;
     validation_errors := validation_errors req |}.

Definition database_down : Server.World :=
  {| Server.db_reachable := false; Server.authenticate_calls := 0;
     Server.sync_calls := 0; Server.console := []; Server.exited := false |}.

End Samples.

(** ** Vocabulary of the further properties *)

Module Terms.
Import Express Store.

(** The path is the mount point itself, with or without a slash at its
    end. *)
Definition root_path (p : list string) : bool :=
  bool_decide (p = []) || bool_decide (p = [""]).

(** The key of a path that is one segment, not empty, with or without a
    slash at its end. *)
Definition path_key (p : list string) : option string :=
  match p with
  | [s] | [s; ""] => if (s =? "")%string then None else Some s
  | _ => None
  end.

Definition key_path (p : list string) : bool :=
  match path_key p with
  | Some _ => true
  | None => false
  end.

(** The verb and path of the request are those of a route of the router:
    the root for GET and POST, a key for GET, PUT, PATCH and DELETE; HEAD
    goes where GET goes. *)
Definition routed (req : Request) : bool :=
  match method req with
  | GET | HEAD => root_path (path req) || key_path (path req)
  | POST => root_path (path req)
  | PUT | PATCH | DELETE => key_path (path req)
  end.

(** The routes whose pattern is ['/:id'], for a key [s]. *)
Definition id_route (req : Request) (s : string) : Prop :=
  path_key (path req) = Some s /\ method req <> POST.

(** No segment of the path but the last is empty: the URL has no doubled
    slash. *)
Fixpoint no_doubled_slash (p : list string) : bool :=
  match p with
  | [] | [_] => true
  | s :: r => negb (s =? "")%string && no_doubled_slash r
  end.

(** The text has no percent sign, so that it reaches [req.params] as it is
    written in the URL. *)
Fixpoint no_percent (s : string) : bool :=
  match s with
  | String c r => negb (c =? "%")%char && no_percent r
  | EmptyString => true
  end.

(** The decimal text of an integer: a minus sign when negative, then the
    digits without leading zeros. *)
Definition int_text (i : Z) : string :=
  if i <? 0 then "-" ++ JS.decimal_digits (- i) else JS.decimal_digits i.

(** Every character is a decimal digit. *)
Fixpoint only_digits (s : string) : bool :=
  match s with
  | String c r => JS.is_digit c && only_digits r
  | EmptyString => true
  end.

(** Some character is a digit from 1 to 9. *)
Fixpoint some_nonzero_digit (s : string) : bool :=
  match s with
  | String c r => (JS.is_digit c && negb (c =? "0")%char) || some_nonzero_digit r
  | EmptyString => false
  end.

(** The text starts with a minus sign. *)
Definition starts_with_minus (s : string) : bool :=
  match s with
  | String "-" _ => true
  | _ => false
  end.

(** The position of the decimal point of a positive number [m * 10^e]:
    the count of its significant digits plus the exponent they carry. *)
Definition point_position (m e : Z) : Z :=
  let (s, z) := JS.strip_trailing_zeros (JS.decimal_digits m) in
  e + Z.of_nat z + Z.of_nat (String.length s).

(** The number [m * 10^e] is one: neither below nor above it. *)
Definition is_one (m e : Z) : Prop :=
  JS.number_lt (JS.Fin m e) (JS.Fin 1 0) = false
  /\ JS.number_lt (JS.Fin 1 0) (JS.Fin m e) = false.

Definition one_millionth : JS.Number := JS.Fin 1 (-6).
Definition ten_to_21 : JS.Number := JS.Fin 1 21.

(** All the failures that the price rule can report at once. *)
Definition price_errors_all : list Express.FieldError :=
  [Props.price_error_numeric; Props.price_error_empty; Props.price_error_numeric].

End Terms.

(** * Properties *)

Import Express ExpressValidator Store Props Terms.

#[local] Arguments JS.gt : simpl never.
#[local] Arguments JS.le : simpl never.
#[local] Arguments JS.number_lt : simpl never.
#[local] Arguments JS.ToNumber : simpl never.
#[local] Arguments JS.ToString : simpl never.
#[local] Arguments toString : simpl never.
#[local] Arguments validator.isEmpty : simpl never.
#[local] Arguments validator.isNumeric : simpl never.
#[local] Arguments validator.isInt : simpl never.
#[local] Arguments validator.isBoolean : simpl never.

(** ** The JavaScript conversions on examples *)

Example NumberToString_integer : JS.NumberToString (JS.Fin 300 0) = "300".
Proof. reflexivity. Qed.

Example NumberToString_fraction : JS.NumberToString (JS.Fin 999 (-2)) = "9.99".
Proof. reflexivity. Qed.

Example NumberToString_trailing_zeros : JS.NumberToString (JS.Fin 1500 (-1)) = "150".
Proof. reflexivity. Qed.

Example NumberToString_small : JS.NumberToString (JS.Fin 1 (-6)) = "0.000001".
Proof. reflexivity. Qed.

Example NumberToString_smaller : JS.NumberToString (JS.Fin 1 (-7)) = "1e-7".
Proof. reflexivity. Qed.

Example NumberToString_large : JS.NumberToString (JS.Fin 1 20) = "100000000000000000000".
Proof. reflexivity. Qed.

Example NumberToString_larger : JS.NumberToString (JS.Fin 1 21) = "1e+21".
Proof. reflexivity. Qed.

Example NumberToString_negative : JS.NumberToString (JS.Fin (-12345) (-7)) = "-0.0012345".
Proof. reflexivity. Qed.

Example StringToNumber_trimmed : JS.StringToNumber "  12.50 " = JS.Fin 1250 (-2).
Proof. reflexivity. Qed.

Example StringToNumber_empty : JS.StringToNumber "" = JS.Fin 0 0.
Proof. reflexivity. Qed.

Example StringToNumber_hex : JS.StringToNumber "0x1F" = JS.Fin 31 0.
Proof. reflexivity. Qed.

Example StringToNumber_exponent : JS.StringToNumber ".5e-2" = JS.Fin 5 (-3).
Proof. reflexivity. Qed.

Example StringToNumber_word : JS.StringToNumber "hola" = JS.NaN.
Proof. reflexivity. Qed.

(** Text below the range of doubles is zero, text above it is infinite. *)
Example StringToNumber_underflow :
  JS.StringToNumber ("0." ++ JS.zeros 330 ++ "1") = JS.Fin 0 0
  /\ JS.StringToNumber "2e-324" = JS.Fin 0 0
  /\ JS.StringToNumber "3e-324" = JS.Fin 3 (-324).
Proof. vm_compute. done. Qed.

Example StringToNumber_overflow :
  JS.StringToNumber "1.7976931348623158e308" = JS.Fin 17976931348623158 292
  /\ JS.StringToNumber "1.7976931348623159e308" = JS.Inf false
  /\ JS.StringToNumber "-2e308" = JS.Inf true.
Proof. vm_compute. done. Qed.

Example ToString_array :
  JS.ToString (JS.VArr [JS.VNum (JS.Fin 5 0); JS.VNull; JS.VStr "a";
                        JS.VArr [JS.VBool true; JS.VUndefined]])
  = "5,,a,true,".
Proof. reflexivity. Qed.

Example ToNumber_array :
  map JS.ToNumber [JS.VArr []; JS.VArr [JS.VNum (JS.Fin 5 0)];
                   JS.VArr [JS.VStr "5"; JS.VStr "6"]; JS.VObj]
  = [JS.Fin 0 0; JS.Fin 5 0; JS.NaN; JS.NaN].
Proof. reflexivity. Qed.

Example isNumeric_examples :
  map validator.isNumeric ["300"; "-9.99"; ".5"; "5."; "1e+21"; ""; " 1"; "hola"]
  = [true; true; true; false; false; false; false; false].
Proof. reflexivity. Qed.

Example isInt_examples :
  map validator.isInt ["1"; "-20"; "+0"; "007"; "1.5"; ""; "x1"; "+"; "--1"]
  = [true; true; true; true; false; false; false; false; false].
Proof. reflexivity. Qed.

(** An empty body fails the name rule once and the price rule three
    times. *)
Example create_empty_body :
  response_of (Router.router (Samples.request POST [] ∅) Store.empty)
  = Some {| status := 400;
            payload := Errors [name_error; price_error_numeric; price_error_empty;
                               price_error_numeric] |}.
Proof. vm_compute. reflexivity. Qed.

(** A price of zero fails the comparison only; a word fails the numeric
    rule and the comparison. *)
Example create_price_zero :
  response_of (Router.router (Samples.request POST [] Samples.monitor_free) Store.empty)
  = Some {| status := 400; payload := Errors [price_error_numeric] |}.
Proof. vm_compute. reflexivity. Qed.

Example create_price_word :
  response_of (Router.router (Samples.request POST [] Samples.monitor_hola) Store.empty)
  = Some {| status := 400;
            payload := Errors [price_error_numeric; price_error_numeric] |}.
Proof. vm_compute. reflexivity. Qed.

(** ** Running a stack *)

Lemma add_errors_nil req : add_errors req [] = req.
Proof. destruct req; unfold add_errors; simpl. by rewrite app_nil_r. Qed.

Lemma add_errors_app req e1 e2 :
  add_errors (add_errors req e1) e2 = add_errors req (e1 ++ e2).
Proof. unfold add_errors; simpl. by rewrite app_assoc. Qed.

Lemma chain_errors_add_errors c req e :
  chain_errors c (add_errors req e) = chain_errors c req.
Proof. reflexivity. Qed.

Lemma rule_failures_add_errors rules req e :
  rule_failures rules (add_errors req e) = rule_failures rules req.
Proof. reflexivity. Qed.

(** The chains of a route only accumulate their failures on the request. *)
Lemma run_validate rules rest req t :
  run (map validate rules ++ rest) req t
  = run rest (add_errors req (rule_failures rules req)) t.
Proof.
  revert req. induction rules as [|c rules IH]; intros req; simpl.
  - by rewrite add_errors_nil.
  - unfold validate at 1. rewrite IH, add_errors_app.
    by rewrite rule_failures_add_errors.
Qed.

Lemma run_last (h : Express.Middleware) req t : run [h] req t = h req t.
Proof. simpl. by destruct (h req t). Qed.

(** A guarded stack in one step: the gate looks at everything recorded on
    the request. *)
Lemma run_guarded rules h req t :
  run (guarded rules h) req t
  = match (validation_errors req ++ rule_failures rules req)%list with
    | [] => h (add_errors req (rule_failures rules req)) t
    | errs => Respond {| status := 400; payload := Errors errs |} t
    end.
Proof.
  unfold guarded. rewrite run_validate.
  change (run (?g :: ?r) ?q t) with
    (match g q t with Next req' t' => run r req' t' | out => out end).
  unfold Middleware.handleInputErrors. simpl validation_errors.
  destruct (validation_errors req ++ rule_failures rules req)%list; [|done].
  apply run_last.
Qed.

(** An item records a failure exactly when it rejects the value. *)
Lemma item_errors_nil f it v : item_errors f it v = [] <-> fails it v = false.
Proof.
  destruct it as [p negated m|p m]; simpl.
  - induction (values_of v) as [|x l IH]; simpl; [done|].
    destruct (rejects p negated x); simpl; [split; done|]. apply IH.
  - destruct (p v); simpl; split; done.
Qed.

Lemma chain_errors_nil c req :
  chain_errors c req = []
  <-> forallb (fun it => negb (fails it (select c req))) (items c) = true.
Proof.
  unfold chain_errors. induction (items c) as [|it its IH]; simpl; [done|].
  rewrite andb_true_iff, negb_true_iff, <- IH, <- item_errors_nil.
  split.
  - intros H. by apply app_eq_nil in H.
  - intros [-> ->]. done.
Qed.

Lemma item_errors_field f it v e : e ∈ item_errors f it v -> field e = f.
Proof.
  destruct it as [p negated m|p m]; simpl.
  - intros He. apply list_elem_of_omap in He as (x & _ & Hx).
    destruct (rejects p negated x); by simplify_eq.
  - destruct (p v); [by intros ?%elem_of_nil|].
    intros ->%list_elem_of_singleton. done.
Qed.

Lemma rule_failures_nil rules req :
  rule_failures rules req = [] <-> passes rules req = true.
Proof.
  unfold rule_failures, passes. induction rules as [|c rules IH]; simpl; [done|].
  rewrite andb_true_iff, <- IH, <- chain_errors_nil.
  split.
  - intros H. by apply app_eq_nil in H.
  - intros [-> ->]. done.
Qed.

Lemma rule_failures_field rules req e :
  e ∈ rule_failures rules req -> exists c, c ∈ rules /\ field e = chain_field c.
Proof.
  unfold rule_failures. rewrite list_elem_of_In, in_flat_map.
  intros (c & Hc & He). exists c. split; [by apply list_elem_of_In|].
  unfold chain_errors in He. apply in_flat_map in He as (it & _ & Hit).
  apply list_elem_of_In in Hit. by apply item_errors_field in Hit.
Qed.

(** ** The gate *)

(** Every route of the router is the unguarded list route or a guarded
    stack: rules, gate, handler. *)
Lemma routes_shape :
  Forall (fun r => Router.stack r = [Handlers.getProducts]
                   \/ exists rules h, rules <> [] /\ Router.stack r = guarded rules h)
         Router.routes.
Proof.
  unfold Router.routes. rewrite !Forall_cons. split_and!.
  - by left.
  - right. exists [Router.id_rule], Handlers.getProductById. done.
  - right. exists [Router.name_rule; Router.price_rule], Handlers.createProduct. done.
  - right.
    exists [Router.id_rule; Router.name_rule; Router.price_rule; Router.availability_rule],
           Handlers.updateProduct. done.
  - right. exists [Router.id_rule], Handlers.updateAvailability. done.
  - right. exists [Router.id_rule], Handlers.deleteProduct. done.
  - apply Forall_nil_2.
Qed.

(** C1. On a route with validation rules (rules, gate, handler), for every
    request that arrives with nothing recorded on it: if some rule fails,
    the outcome is the response 400 with the list of field/message pairs of
    the failures, whatever the handler is and with the table untouched (the
    handler is not called); if no rule fails, the outcome is that of the
    handler on the very same request. *)
Theorem gate_contract (rules : list ValidationChain) (handler : Express.Middleware)
    (req : Request) (t : Table) :
  fresh req ->
  (passes rules req = false ->
     rule_failures rules req <> []
     /\ run (guarded rules handler) req t
        = Respond {| status := 400; payload := Errors (rule_failures rules req) |} t)
  /\ (passes rules req = true ->
     run (guarded rules handler) req t = handler req t).
Proof.
  intros Hfresh. unfold fresh in Hfresh.
  rewrite run_guarded, Hfresh. simpl app. split.
  - intros Hfail.
    assert (rule_failures rules req <> []) as Hne.
    { rewrite rule_failures_nil. by rewrite Hfail. }
    split; [done|]. by destruct (rule_failures rules req).
  - intros Hpass. apply rule_failures_nil in Hpass. rewrite Hpass.
    by rewrite add_errors_nil.
Qed.

Lemma gate_contract_witness :
  fresh (Samples.request POST [] Samples.nameless_free)
  /\ passes [Router.name_rule; Router.price_rule]
            (Samples.request POST [] Samples.nameless_free) = false
  /\ run (guarded [Router.name_rule; Router.price_rule] Handlers.createProduct)
         (Samples.request POST [] Samples.nameless_free) Store.empty
     = Respond
         {| status := 400;
            payload :=
              Errors [ {| field := "name";
                          message := "El nombre de Producto no puede ir vacio" |};
                       {| field := "price"; message := "Precio no valido" |} ] |}
         Store.empty.
Proof.
  split; [reflexivity|]. split; [vm_compute; reflexivity|].
  apply (gate_contract [Router.name_rule; Router.price_rule] Handlers.createProduct
           (Samples.request POST [] Samples.nameless_free) Store.empty).
  - reflexivity.
  - vm_compute; reflexivity.
Defined.

(** ** Digit strings *)

Lemma append_cons x (a b : string) : (String x a ++ b = String x (a ++ b))%string.
Proof. reflexivity. Qed.

Lemma append_nil_l (a : string) : ("" ++ a = a)%string.
Proof. reflexivity. Qed.

Lemma append_assoc (a b c : string) : ((a ++ b) ++ c = a ++ (b ++ c))%string.
Proof.
  induction a as [|x a IH]; [done|]. rewrite !append_cons. f_equal. exact IH.
Qed.

Lemma append_nil_r (a : string) : (a ++ "" = a)%string.
Proof. induction a as [|x a IH]; [done|]. rewrite append_cons. f_equal. exact IH. Qed.

Lemma length_append (a b : string) :
  String.length (a ++ b) = (String.length a + String.length b)%nat.
Proof.
  induction a as [|x a IH]; [done|]. rewrite append_cons. simpl. f_equal. exact IH.
Qed.

Lemma rev_app_append s a : String.rev_app s a = (String.rev s ++ a)%string.
Proof.
  unfold String.rev. revert a. induction s as [|x s IH]; intros a; simpl; [done|].
  rewrite (IH (String x a)), (IH (String x "")). by rewrite append_assoc.
Qed.

Lemma rev_cons x s : String.rev (String x s) = (String.rev s ++ String x "")%string.
Proof. unfold String.rev at 1. simpl. apply rev_app_append. Qed.

Lemma rev_append a b : String.rev (a ++ b) = (String.rev b ++ String.rev a)%string.
Proof.
  induction a as [|x a IH].
  - by rewrite append_nil_l, append_nil_r.
  - by rewrite append_cons, !rev_cons, IH, append_assoc.
Qed.

Lemma rev_rev s : String.rev (String.rev s) = s.
Proof.
  induction s as [|x s IH]; [done|].
  by rewrite rev_cons, rev_append, IH.
Qed.

Lemma zeros_snoc k : (JS.zeros k ++ "0" = JS.zeros (S k))%string.
Proof.
  induction k as [|k IH]; [done|].
  change (JS.zeros (S k)) with (String "0" (JS.zeros k)) at 1.
  rewrite append_cons, IH. done.
Qed.

Lemma rev_zeros k : String.rev (JS.zeros k) = JS.zeros k.
Proof.
  induction k as [|k IH]; [done|].
  change (JS.zeros (S k)) with (String "0" (JS.zeros k)) at 1.
  by rewrite rev_cons, IH, zeros_snoc.
Qed.

Lemma length_zeros k : String.length (JS.zeros k) = k.
Proof. induction k as [|k IH]; simpl; [done|]. f_equal. exact IH. Qed.

Lemma drop_zeros_spec r r' z :
  JS.drop_zeros r = (r', z) -> r = (JS.zeros z ++ r')%string.
Proof.
  revert r' z. induction r as [|c r IH]; intros r' z H; simpl in H.
  - by simplify_eq.
  - destruct (decide (c = "0"%char)) as [->|Hc].
    + destruct (JS.drop_zeros r) as [u k]. simplify_eq.
      change (JS.zeros (S k)) with (String "0" (JS.zeros k)).
      rewrite append_cons. f_equal. by apply IH.
    + assert (JS.drop_zeros (String c r) = (String c r, O)) as Hd.
      { simpl. destruct c as [[] [] [] [] [] [] [] []]; try done. }
      simpl in Hd. rewrite Hd in H. by simplify_eq.
Qed.

Lemma strip_trailing_zeros_spec s t z :
  JS.strip_trailing_zeros s = (t, z) -> s = (t ++ JS.zeros z)%string.
Proof.
  unfold JS.strip_trailing_zeros. intros H.
  destruct (JS.drop_zeros (String.rev s)) as [u k] eqn:E. simplify_eq.
  apply drop_zeros_spec in E.
  rewrite <- (rev_rev s), E, rev_append. by rewrite rev_zeros.
Qed.

Lemma only_digits_append a b :
  only_digits (a ++ b) = only_digits a && only_digits b.
Proof.
  induction a as [|x a IH]; [done|]. rewrite append_cons. simpl.
  by rewrite IH, andb_assoc.
Qed.

Lemma only_digits_zeros k : only_digits (JS.zeros k) = true.
Proof. induction k; done. Qed.

Lemma only_digits_uint d : only_digits (NilEmpty.string_of_uint d) = true.
Proof. induction d; done. Qed.

Lemma digits_value_from_append acc a b :
  JS.digits_value_from acc (a ++ b) = JS.digits_value_from (JS.digits_value_from acc a) b.
Proof.
  revert acc. induction a as [|x a IH]; intros acc; [done|].
  rewrite append_cons. simpl. apply IH.
Qed.

Lemma digits_value_from_zeros acc k :
  JS.digits_value_from acc (JS.zeros k) = acc * 10 ^ Z.of_nat k.
Proof.
  revert acc. induction k as [|k IH]; intros acc.
  - simpl. lia.
  - change (JS.zeros (S k)) with (String "0" (JS.zeros k)).
    simpl JS.digits_value_from. rewrite IH.
    rewrite Nat2Z.inj_succ, Z.pow_succ_r by lia.
    change (JS.digit_val "0") with 0. lia.
Qed.

Lemma digits_value_from_acc acc s :
  JS.digits_value_from acc s
  = acc * 10 ^ Z.of_nat (String.length s) + JS.digits_value_from 0 s.
Proof.
  revert acc. induction s as [|x s IH]; intros acc.
  - simpl. lia.
  - simpl JS.digits_value_from. simpl String.length.
    rewrite (IH (10 * acc + JS.digit_val x)), (IH (10 * 0 + JS.digit_val x)).
    rewrite Nat2Z.inj_succ, Z.pow_succ_r by lia. lia.
Qed.

Lemma digit_val_range c : JS.is_digit c = true -> 0 <= JS.digit_val c <= 9.
Proof.
  unfold JS.is_digit, JS.digit_val. intros H.
  apply andb_true_iff in H as [H1 H2].
  apply N.leb_le in H1, H2. lia.
Qed.

Lemma digit_val_nonzero c :
  JS.is_digit c = true -> c <> "0"%char -> 1 <= JS.digit_val c.
Proof.
  intros H Hc. pose proof (digit_val_range c H).
  assert (JS.digit_val c <> 0); [|lia].
  unfold JS.digit_val. intros Hzero. apply Hc.
  rewrite <- (ascii_N_embedding c). 
  replace (N_of_ascii c) with 48%N by lia. done.
Qed.

Lemma digits_value_bound s :
  only_digits s = true ->
  0 <= JS.digits_value s < 10 ^ Z.of_nat (String.length s).
Proof.
  unfold JS.digits_value. induction s as [|x s IH]; simpl only_digits.
  - simpl. lia.
  - intros [Hx Hs]%andb_true_iff. specialize (IH Hs).
    simpl JS.digits_value_from. simpl String.length.
    rewrite digits_value_from_acc.
    rewrite Nat2Z.inj_succ, Z.pow_succ_r by lia.
    pose proof (digit_val_range x Hx).
    assert (0 < 10 ^ Z.of_nat (String.length s)) by (apply Z.pow_pos_nonneg; lia).
    nia.
Qed.

Lemma digits_value_lower c r :
  JS.is_digit c = true -> c <> "0"%char -> only_digits r = true ->
  10 ^ Z.of_nat (String.length r) <= JS.digits_value (String c r).
Proof.
  intros Hc Hnz Hr. unfold JS.digits_value. simpl JS.digits_value_from.
  rewrite digits_value_from_acc.
  pose proof (digit_val_nonzero c Hc Hnz).
  pose proof (digits_value_bound r Hr) as Hb. unfold JS.digits_value in Hb.
  assert (0 < 10 ^ Z.of_nat (String.length r)) by (apply Z.pow_pos_nonneg; lia).
  nia.
Qed.

Lemma of_uint_acc_value d acc :
  Z.pos (Pos.of_uint_acc d acc)
  = JS.digits_value_from (Z.pos acc) (NilEmpty.string_of_uint d).
Proof.
  revert acc. induction d; intros acc; simpl; [done|..]; rewrite IHd; f_equal;
    unfold JS.digit_val; simpl; lia.
Qed.

Lemma of_uint_value d :
  Z.of_N (Pos.of_uint d) = JS.digits_value (NilEmpty.string_of_uint d).
Proof.
  unfold JS.digits_value. induction d; simpl; [done| |..]; try exact IHd;
    rewrite of_uint_acc_value; f_equal.
Qed.

Lemma string_of_uint_nonnil d :
  d <> Decimal.Nil -> NilZero.string_of_uint d = NilEmpty.string_of_uint d.
Proof. by destruct d. Qed.

(** The digits of a natural number denote it. *)
Lemma decimal_digits_value n : 0 <= n -> JS.digits_value (JS.decimal_digits n) = n.
Proof.
  intros Hn. unfold JS.decimal_digits.
  destruct (Z.to_N n) as [|p] eqn:E.
  - assert (n = 0) as -> by lia. reflexivity.
  - simpl N.to_uint.
    rewrite string_of_uint_nonnil by apply DecimalPos.Unsigned.to_uint_nonnil.
    rewrite <- of_uint_value, DecimalPos.Unsigned.of_to. lia.
Qed.

Lemma to_uint_head p d : Pos.to_uint p <> Decimal.D0 d.
Proof.
  assert (Decimal.unorm (Pos.to_uint p) = Pos.to_uint p) as Hn.
  { rewrite <- DecimalPos.Unsigned.to_of, DecimalPos.Unsigned.of_to. done. }
  assert (Decimal.nzhead (Pos.to_uint p) <> Decimal.Nil) as Hnz.
  { intros H. unfold Decimal.unorm in Hn. rewrite H in Hn.
    symmetry in Hn. by apply DecimalPos.Unsigned.to_uint_nonzero in Hn. }
  rewrite <- Hn, DecimalFacts.unorm_nzhead by done.
  apply DecimalFacts.nzhead_nonzero.
Qed.

(** The digits of a positive number start with a digit other than 0. *)
Lemma decimal_digits_shape n :
  0 < n ->
  exists c r, JS.decimal_digits n = String c r
              /\ JS.is_digit c = true /\ c <> "0"%char /\ only_digits r = true.
Proof.
  intros Hn. unfold JS.decimal_digits.
  destruct (Z.to_N n) as [|p] eqn:E; [lia|]. simpl N.to_uint.
  rewrite string_of_uint_nonnil by apply DecimalPos.Unsigned.to_uint_nonnil.
  pose proof (to_uint_head p) as Hh.
  pose proof (DecimalPos.Unsigned.to_uint_nonnil p) as Hnil.
  pose proof (only_digits_uint (Pos.to_uint p)) as Hd.
  destruct (Pos.to_uint p) as [|d|d|d|d|d|d|d|d|d|d]; [done|by destruct (Hh d)|..];
    simpl in *; eexists _, _; split; try reflexivity; split_and!; done.
Qed.

(** The digits left when the trailing zeros are dropped: the same first
    digit, only digits, and the value scaled down. *)
Lemma significant_digits n :
  0 < n ->
  exists c r z,
    JS.strip_trailing_zeros (JS.decimal_digits n) = (String c r, z)
    /\ JS.is_digit c = true /\ c <> "0"%char /\ only_digits r = true
    /\ n = JS.digits_value (String c r) * 10 ^ Z.of_nat z.
Proof.
  intros Hn. destruct (decimal_digits_shape n Hn) as (c & r & Hs & Hc & Hnz & Hr).
  destruct (JS.strip_trailing_zeros (JS.decimal_digits n)) as [t z] eqn:E.
  pose proof (strip_trailing_zeros_spec _ _ _ E) as Hsplit.
  assert (only_digits t = true) as Ht.
  { assert (only_digits (JS.decimal_digits n) = true) as Hall.
    { rewrite Hs. simpl. by rewrite Hc, Hr. }
    rewrite Hsplit, only_digits_append in Hall.
    by apply andb_true_iff in Hall as [? _]. }
  assert (n = JS.digits_value t * 10 ^ Z.of_nat z) as Hval.
  { rewrite <- (decimal_digits_value n) at 1 by lia.
    rewrite Hsplit. unfold JS.digits_value.
    by rewrite digits_value_from_append, digits_value_from_zeros. }
  destruct t as [|c' r'].
  - exfalso. unfold JS.digits_value in Hval. simpl in Hval. lia.
  - rewrite Hs, append_cons in Hsplit. simplify_eq.
    simpl in Ht. apply andb_true_iff in Ht as [_ Ht].
    exists c', r', z. done.
Qed.

(** ** The numeric predicate on printed numbers *)

Lemma split_sign_digit c r :
  JS.is_digit c = true -> JS.split_sign (String c r) = (false, String c r).
Proof. destruct c as [[] [] [] [] [] [] [] []]; done. Qed.

Lemma span_digits_append d r :
  only_digits d = true ->
  match r with String c _ => JS.is_digit c = false | EmptyString => True end ->
  JS.span_digits (d ++ r) = (d, r).
Proof.
  intros Hd Hr. induction d as [|x d IH].
  - rewrite append_nil_l. destruct r as [|c r]; [done|]. simpl. by rewrite Hr.
  - simpl in Hd. apply andb_true_iff in Hd as [Hx Hd].
    rewrite append_cons. simpl. rewrite Hx, (IH Hd). done.
Qed.

Lemma span_digits_all d : only_digits d = true -> JS.span_digits d = (d, "").
Proof.
  intros Hd. rewrite <- (append_nil_r d) at 1. by apply span_digits_append.
Qed.

Lemma all_digits_only d : only_digits d = true -> validator.all_digits d = true.
Proof. intros Hd. unfold validator.all_digits. by rewrite span_digits_all. Qed.

Lemma isNumeric_digits c r :
  JS.is_digit c = true -> only_digits r = true ->
  validator.isNumeric (String c r) = true.
Proof.
  intros Hc Hr. unfold validator.isNumeric.
  rewrite split_sign_digit by done.
  rewrite span_digits_all by (simpl; by rewrite Hc, Hr). done.
Qed.

Lemma split_sign_point r : JS.split_sign (String "." r) = (false, String "." r).
Proof. done. Qed.

Lemma isNumeric_point a b :
  only_digits a = true -> only_digits b = true -> b <> "" ->
  validator.isNumeric (a ++ String "." b) = true.
Proof.
  intros Ha Hb Hne. unfold validator.isNumeric.
  assert (JS.split_sign (a ++ String "." b) = (false, (a ++ String "." b)%string)) as ->.
  { destruct a as [|c a]; [done|]. rewrite append_cons.
    simpl in Ha. apply andb_true_iff in Ha as [Hc _]. by apply split_sign_digit. }
  rewrite span_digits_append by done.
  rewrite all_digits_only by done. by destruct b.
Qed.

Lemma isNumeric_exponent_short c r :
  JS.is_digit c = true ->
  validator.isNumeric (String c (String "e" r)) = false.
Proof.
  intros Hc. unfold validator.isNumeric. rewrite split_sign_digit by done.
  change (String c (String "e" r)) with (String c "" ++ String "e" r)%string.
  rewrite span_digits_append; [done|simpl; by rewrite Hc|done].
Qed.

Lemma isNumeric_exponent_long c r u :
  JS.is_digit c = true -> only_digits r = true ->
  validator.isNumeric (String c (String "." (r ++ String "e" u))) = false.
Proof.
  intros Hc Hr. unfold validator.isNumeric. rewrite split_sign_digit by done.
  change (String c (String "." (r ++ String "e" u)))
    with (String c "" ++ String "." (r ++ String "e" u))%string.
  rewrite span_digits_append; [|simpl; by rewrite Hc|done].
  unfold validator.all_digits. rewrite span_digits_append by done.
  by rewrite andb_false_r.
Qed.

Lemma only_digits_take n s : only_digits s = true -> only_digits (JS.take_str n s) = true.
Proof.
  revert s. induction n as [|n IH]; intros [|c s] H; try done.
  simpl in *. apply andb_true_iff in H as [Hc Hs]. by rewrite Hc, IH.
Qed.

Lemma only_digits_drop n s : only_digits s = true -> only_digits (JS.drop_str n s) = true.
Proof.
  revert s. induction n as [|n IH]; intros [|c s] H; try done.
  simpl in *. apply andb_true_iff in H as [Hc Hs]. by apply IH.
Qed.

Lemma drop_str_nonempty n s : (n < String.length s)%nat -> JS.drop_str n s <> "".
Proof.
  revert s. induction n as [|n IH]; intros [|c s] H; simpl in *; try done; try lia.
  apply IH. lia.
Qed.

Lemma take_drop_str n s : (JS.take_str n s ++ JS.drop_str n s = s)%string.
Proof.
  revert s. induction n as [|n IH]; intros [|c s]; try done.
  simpl. rewrite append_cons. f_equal. apply IH.
Qed.

(** A printed positive number passes the numeric predicate exactly when it
    is printed without exponent. *)
Lemma positive_to_string_numeric m e :
  0 < m ->
  validator.isNumeric (JS.positive_to_string m e)
  = (-6 <? point_position m e) && (point_position m e <=? 21).
Proof.
  intros Hm. destruct (significant_digits m Hm) as (c & r & z & Hs & Hc & Hnz & Hr & _).
  unfold JS.positive_to_string, point_position. rewrite Hs.
  set (t := String c r).
  assert (only_digits t = true) as Ht by (simpl; by rewrite Hc, Hr).
  set (k := Z.of_nat (String.length t)).
  assert (1 <= k) as Hk by (subst k t; simpl; lia).
  set (n := e + Z.of_nat z + k).
  destruct ((k <=? n) && (n <=? 21)) eqn:HA.
  { apply andb_true_iff in HA as [H1 H2]. apply Z.leb_le in H1, H2.
    subst t. rewrite append_cons.
    rewrite isNumeric_digits; [|done|by rewrite only_digits_append, Hr, only_digits_zeros].
    symmetry. apply andb_true_iff. split; [apply Z.ltb_lt|apply Z.leb_le]; lia. }
  destruct ((0 <? n) && (n <=? 21)) eqn:HB.
  { apply andb_true_iff in HB as [H1 H2]. apply Z.ltb_lt in H1. apply Z.leb_le in H2.
    assert (n < k) as Hlt.
    { apply andb_false_iff in HA as [HA|HA]; [apply Z.leb_gt in HA|apply Z.leb_gt in HA];
        lia. }
    change ("." ++ JS.drop_str (Z.to_nat n) t)%string
      with (String "." (JS.drop_str (Z.to_nat n) t)).
    rewrite isNumeric_point;
      [|by apply only_digits_take|by apply only_digits_drop
       |apply drop_str_nonempty; subst k; lia].
    symmetry. apply andb_true_iff. split; [apply Z.ltb_lt|apply Z.leb_le]; lia. }
  destruct ((-6 <? n) && (n <=? 0)) eqn:HC.
  { apply andb_true_iff in HC as [H1 H2]. apply Z.ltb_lt in H1. apply Z.leb_le in H2.
    change ("0." ++ JS.zeros (Z.to_nat (- n)) ++ t)%string
      with ("0" ++ String "." (JS.zeros (Z.to_nat (- n)) ++ t))%string.
    rewrite isNumeric_point;
      [|done|by rewrite only_digits_append, only_digits_zeros, Ht|].
    - symmetry. apply andb_true_iff. split; [apply Z.ltb_lt|apply Z.leb_le]; lia.
    - subst t. destruct (JS.zeros (Z.to_nat (- n))); done. }
  assert ((-6 <? n) && (n <=? 21) = false) as ->.
  { apply andb_false_iff in HB as [HB|HB], HC as [HC|HC];
      apply andb_false_iff; rewrite ?Z.ltb_ge, ?Z.leb_gt in *;
      try (left; lia); try (right; lia). }
  destruct (k =? 1) eqn:Hk1.
  - apply Z.eqb_eq in Hk1. subst k t. destruct r; [|simpl in Hk1; lia].
    rewrite append_cons, append_nil_l.
    change ("e" ++ ?x)%string with (String "e" x).
    by apply isNumeric_exponent_short.
  - subst t. simpl JS.take_str. simpl JS.drop_str.
    rewrite append_cons, append_nil_l.
    change ("." ++ r ++ "e" ++ ?x)%string with (String "." (r ++ String "e" x)).
    by apply isNumeric_exponent_long.
Qed.

(** ** The size of a printed number *)

Lemma pow10_pos c : 0 <= c -> 0 < 10 ^ c.
Proof. intros. by apply Z.pow_pos_nonneg. Qed.

Lemma pow_cmp v k c d :
  1 <= k -> 10 ^ (k - 1) <= v < 10 ^ k -> 0 <= c -> 0 <= d ->
  v * 10 ^ c < 10 ^ d <-> k + c <= d.
Proof.
  intros Hk [Hlo Hhi] Hc Hd.
  pose proof (pow10_pos c Hc) as Hpc.
  split.
  - intros Hlt. destruct (Z_le_gt_dec (k + c) d) as [|Hgt]; [done|exfalso].
    assert (10 ^ d <= 10 ^ (k - 1 + c)) as H1 by (apply Z.pow_le_mono_r; lia).
    rewrite Z.pow_add_r in H1 by lia. nia.
  - intros Hle.
    assert (10 ^ (k + c) <= 10 ^ d) as H1 by (apply Z.pow_le_mono_r; lia).
    rewrite Z.pow_add_r in H1 by lia. nia.
Qed.

Lemma point_position_spec m :
  0 < m ->
  exists v k z,
    1 <= k /\ 0 <= z /\ 10 ^ (k - 1) <= v < 10 ^ k /\ m = v * 10 ^ z
    /\ forall e, point_position m e = e + z + k.
Proof.
  intros Hm. destruct (significant_digits m Hm) as (c & r & z & Hs & Hc & Hnz & Hr & Hv).
  exists (JS.digits_value (String c r)), (Z.of_nat (String.length (String c r))),
    (Z.of_nat z).
  split_and!; try (simpl; lia).
  - replace (Z.of_nat (String.length (String c r)) - 1)
      with (Z.of_nat (String.length r)) by (simpl; lia).
    by apply digits_value_lower.
  - apply digits_value_bound. simpl. by rewrite Hc, Hr.
  - intros e. unfold point_position. by rewrite Hs.
Qed.

(** A positive number is below [10^b] exactly when its decimal point is at
    position [b] or before. *)
Lemma below_power m e b :
  0 < m -> JS.number_lt (JS.Fin m e) (JS.Fin 1 b) = true <-> point_position m e <= b.
Proof.
  intros Hm.
  destruct (point_position_spec m Hm) as (v & k & z & Hk & Hz & Hv & Hmv & Hn).
  rewrite Hn. unfold JS.number_lt. rewrite Z.ltb_lt, Z.mul_1_l.
  set (e0 := Z.min e b).
  assert (m * 10 ^ (e - e0) = v * 10 ^ (z + (e - e0))) as ->.
  { rewrite Hmv, Z.pow_add_r by lia. lia. }
  rewrite (pow_cmp v k) by lia. lia.
Qed.

Lemma above_zero m e : JS.number_lt zero (JS.Fin m e) = true <-> 0 < m.
Proof.
  unfold JS.number_lt, zero. rewrite Z.ltb_lt, Z.mul_0_l.
  pose proof (pow10_pos (e - Z.min 0 e)). nia.
Qed.

Lemma toString_number m e :
  toString (JS.VNum (JS.Fin m e)) = JS.NumberToString (JS.Fin m e).
Proof. reflexivity. Qed.

Lemma NumberToString_positive m e :
  0 < m -> JS.NumberToString (JS.Fin m e) = JS.positive_to_string m e.
Proof.
  intros Hm. unfold JS.NumberToString.
  destruct (m =? 0) eqn:E1; [apply Z.eqb_eq in E1; lia|].
  destruct (m <? 0) eqn:E2; [apply Z.ltb_lt in E2; lia|]. done.
Qed.

(** ** The text form that the validators see *)

Lemma toString_VStr s : toString (JS.VStr s) = s.
Proof.
  destruct s as [|c s]; [reflexivity|].
  unfold toString. simpl. by rewrite andb_false_r.
Qed.

(** A value whose text form is not empty is shown as [String] shows it. *)
Lemma toString_nonempty v :
  validator.isEmpty (toString v) = false -> toString v = JS.ToString v.
Proof.
  unfold toString. destruct v; try done;
    by destruct (is_nullish _ || JS.isNaN _ && negb (has_length _)).
Qed.

Lemma values_of_scalar v : is_array v = false -> values_of v = [v].
Proof. by destruct v. Qed.

Lemma isNumeric_nonempty s :
  validator.isNumeric s = true -> validator.isEmpty s = false.
Proof. by destruct s. Qed.

Lemma isEmpty_false s : validator.isEmpty s = false <-> s <> "".
Proof. destruct s; [by split|]. split; done. Qed.

Lemma isEmpty_true s : validator.isEmpty s = true <-> s = "".
Proof. destruct s; by split. Qed.

(** ** Numerals in text *)

Lemma span_digits_spec s d r :
  JS.span_digits s = (d, r) ->
  s = (d ++ r)%string /\ only_digits d = true
  /\ match r with String c _ => JS.is_digit c = false | EmptyString => True end.
Proof.
  revert d r. induction s as [|c s IH]; intros d r H; simpl in H.
  - by simplify_eq.
  - destruct (JS.is_digit c) eqn:Hc.
    + destruct (JS.span_digits s) as [d' r'] eqn:E.
      destruct (IH d' r' eq_refl) as (Hs & Hd & Hr). simplify_eq.
      rewrite append_cons. simpl. by rewrite Hc, Hd.
    + by simplify_eq.
Qed.

Lemma all_digits_inv t : validator.all_digits t = true -> only_digits t = true.
Proof.
  unfold validator.all_digits. destruct (JS.span_digits t) as [d r] eqn:E.
  destruct r; [|done]. intros _.
  apply span_digits_spec in E as (-> & Hd & _). by rewrite append_nil_r.
Qed.

(** The shape of the text that the numeric predicate accepts: a sign or
    none, then digits, or digits (possibly none), a point and digits. *)
Lemma isNumeric_shape s :
  validator.isNumeric s = true ->
  exists neg r,
    JS.split_sign s = (neg, r)
    /\ ((exists c u, r = String c u /\ JS.is_digit c = true /\ only_digits u = true)
        \/ (exists a b, r = (a ++ String "." b)%string /\ only_digits a = true
                        /\ only_digits b = true /\ b <> "")).
Proof.
  unfold validator.isNumeric. destruct (JS.split_sign s) as [neg r] eqn:Hs.
  destruct (JS.span_digits r) as [d r1] eqn:Hd. intros H.
  exists neg, r. split; [done|].
  apply span_digits_spec in Hd as (-> & Hd & Hr1).
  destruct r1 as [|c r1].
  - left. rewrite append_nil_r. destruct d as [|c u]; [done|].
    simpl in Hd. apply andb_true_iff in Hd as [??]. by exists c, u.
  - right. destruct (decide (c = "."%char)) as [->|Hc].
    + apply andb_true_iff in H as [Hne Hall]. exists d, r1.
      split_and!; try done; [by apply all_digits_inv|by destruct r1].
    + exfalso. destruct c as [[] [] [] [] [] [] [] []]; done.
Qed.

Lemma split_sign_spec s neg r :
  JS.split_sign s = (neg, r) ->
  (s = r /\ neg = false /\ starts_with_minus s = false
   /\ match r with String c _ => c <> "+"%char /\ c <> "-"%char | EmptyString => True end)
  \/ (s = String "+" r /\ neg = false) \/ (s = String "-" r /\ neg = true).
Proof.
  destruct s as [|c s]; simpl; [intros; simplify_eq; by left|].
  destruct (decide (c = "+"%char)) as [->|Hp]; [intros; simplify_eq; auto|].
  destruct (decide (c = "-"%char)) as [->|Hm]; [intros; simplify_eq; auto|].
  intros H. left.
  assert (JS.split_sign (String c s) = (false, String c s)) as Hs.
  { destruct c as [[] [] [] [] [] [] [] []]; done. }
  simpl in Hs. rewrite Hs in H. simplify_eq. split_and!; try done.
  destruct c as [[] [] [] [] [] [] [] []]; done.
Qed.

(** White space: none at a character below 128 that is not one of the six
    ASCII white-space characters. *)
Lemma ws_len_front c r :
  (N_of_ascii c < 128)%N -> JS.is_ws1 (N_of_ascii c) = false ->
  JS.ws_len false (String c r) = O.
Proof.
  intros Hc H1. unfold JS.ws_len. rewrite H1.
  destruct r as [|b r]; [done|].
  assert (JS.is_ws2 (N_of_ascii c) (N_of_ascii b) = false) as ->.
  { unfold JS.is_ws2. apply andb_false_iff. left. apply N.eqb_neq. lia. }
  destruct r as [|d r]; [done|].
  assert (JS.is_ws3 (N_of_ascii c) (N_of_ascii b) (N_of_ascii d) = false) as ->; [|done].
  unfold JS.is_ws3.
  rewrite (proj2 (N.eqb_neq (N_of_ascii c) 225)), (proj2 (N.eqb_neq (N_of_ascii c) 226)),
    (proj2 (N.eqb_neq (N_of_ascii c) 227)), (proj2 (N.eqb_neq (N_of_ascii c) 239)) by lia.
  done.
Qed.

Lemma ws_len_back c r :
  (N_of_ascii c < 128)%N -> JS.is_ws1 (N_of_ascii c) = false ->
  JS.ws_len true (String c r) = O.
Proof.
  intros Hc H1. unfold JS.ws_len. rewrite H1.
  destruct r as [|b r]; [done|].
  assert (JS.is_ws2 (N_of_ascii b) (N_of_ascii c) = false) as ->.
  { unfold JS.is_ws2. apply andb_false_iff. right. apply N.eqb_neq. lia. }
  destruct r as [|d r]; [done|].
  assert (JS.is_ws3 (N_of_ascii d) (N_of_ascii b) (N_of_ascii c) = false) as ->; [|done].
  unfold JS.is_ws3.
  rewrite (proj2 (N.eqb_neq (N_of_ascii c) 128)), (proj2 (N.eqb_neq (N_of_ascii c) 168)),
    (proj2 (N.eqb_neq (N_of_ascii c) 169)), (proj2 (N.eqb_neq (N_of_ascii c) 175)),
    (proj2 (N.eqb_neq (N_of_ascii c) 159)), (proj2 (N.eqb_neq (N_of_ascii c) 191)),
    (proj2 (N.leb_gt 128 (N_of_ascii c))) by lia.
  by rewrite !andb_false_r.
Qed.

Lemma skip_ws_none fuel back s : JS.ws_len back s = O -> JS.skip_ws fuel back s = s.
Proof. intros H. destruct fuel; simpl; [done|]. by rewrite H. Qed.

Lemma digit_code c : JS.is_digit c = true -> (48 <= N_of_ascii c <= 57)%N.
Proof.
  unfold JS.is_digit. intros [H1 H2]%andb_true_iff. apply N.leb_le in H1, H2. lia.
Qed.

Lemma digit_not_ws c :
  JS.is_digit c = true -> (N_of_ascii c < 128)%N /\ JS.is_ws1 (N_of_ascii c) = false.
Proof.
  intros H%digit_code. split; [lia|]. unfold JS.is_ws1.
  rewrite !orb_false_iff. split_and!; apply N.eqb_neq; lia.
Qed.

(** Text that starts with a sign, a digit or a point and ends with a digit
    has no white space to trim. *)
Lemma trim_numeral c r c' u :
  (N_of_ascii c < 128)%N -> JS.is_ws1 (N_of_ascii c) = false ->
  String.rev (String c r) = String c' u -> JS.is_digit c' = true ->
  JS.trim (String c r) = String c r.
Proof.
  intros Hc Hws Hrev Hd. unfold JS.trim.
  rewrite (skip_ws_none _ false) by by apply ws_len_front.
  rewrite Hrev. destruct (digit_not_ws c' Hd) as [? ?].
  rewrite (skip_ws_none _ true) by by apply ws_len_back.
  by rewrite <- Hrev, rev_rev.
Qed.

Lemma only_digits_rev s : only_digits (String.rev s) = only_digits s.
Proof.
  induction s as [|c s IH]; [done|].
  rewrite rev_cons, only_digits_append, IH. simpl. by rewrite andb_true_r, andb_comm.
Qed.

Lemma rev_last_digit a b :
  only_digits b = true -> b <> "" ->
  exists c u, String.rev (a ++ b) = String c u /\ JS.is_digit c = true.
Proof.
  intros Hb Hne. rewrite rev_append.
  pose proof (only_digits_rev b) as Hr. rewrite Hb in Hr.
  destruct (String.rev b) as [|c u] eqn:E.
  - exfalso. apply Hne. by rewrite <- (rev_rev b), E.
  - exists c, (u ++ String.rev a)%string. rewrite append_cons.
    simpl in Hr. by apply andb_true_iff in Hr as [? _].
Qed.

Lemma ascii_eqb_false (a b : ascii) : a <> b -> (a =? b)%char = false.
Proof. intros H. by apply Ascii.eqb_neq. Qed.

Lemma digit_or_point_not_letter p :
  JS.is_digit p = true \/ p = "."%char ->
  p <> "x"%char /\ p <> "X"%char /\ p <> "o"%char /\ p <> "O"%char
  /\ p <> "b"%char /\ p <> "B"%char /\ p <> "I"%char.
Proof. intros [H | ->]; split_and!; try done; intros ->; done. Qed.

Lemma parse_nondecimal_zero p r :
  JS.is_digit p = true \/ p = "."%char ->
  JS.parse_nondecimal (String "0" (String p r)) = None.
Proof.
  intros (? & ? & ? & ? & ? & ? & _)%digit_or_point_not_letter.
  destruct r as [|c r]; [done|].
  cbv beta iota delta [JS.parse_nondecimal].
  by rewrite !ascii_eqb_false.
Qed.

Lemma parse_nondecimal_other c r :
  c <> "0"%char -> JS.parse_nondecimal (String c r) = None.
Proof. intros H. destruct c as [[] [] [] [] [] [] [] []]; done. Qed.

Lemma not_Infinity c u :
  JS.is_digit c = true \/ c = "."%char -> (String c u =? "Infinity")%string = false.
Proof.
  intros (_ & _ & _ & _ & _ & _ & H)%digit_or_point_not_letter.
  apply String.eqb_neq. intros Heq. by simplify_eq.
Qed.

Lemma some_nonzero_digit_append a b :
  some_nonzero_digit (a ++ b) = some_nonzero_digit a || some_nonzero_digit b.
Proof.
  induction a as [|c a IH]; [done|]. rewrite append_cons. simpl.
  by rewrite IH, orb_assoc.
Qed.

Lemma digits_value_from_pos acc ds :
  0 <= acc -> only_digits ds = true ->
  0 < JS.digits_value_from acc ds <-> 0 < acc \/ some_nonzero_digit ds = true.
Proof.
  revert acc. induction ds as [|c ds IH]; intros acc Hacc Hds.
  - simpl. split; [auto|intros [?|?]; done].
  - simpl in Hds. apply andb_true_iff in Hds as [Hc Hds].
    pose proof (digit_val_range c Hc) as Hrange.
    simpl JS.digits_value_from. rewrite IH by (done || lia).
    simpl some_nonzero_digit. rewrite Hc. simpl.
    destruct (decide (c = "0"%char)) as [->|Hnz].
    + change (JS.digit_val "0") with 0. simpl. split; intros [?|?]; auto; left; lia.
    + pose proof (digit_val_nonzero c Hc Hnz).
      rewrite (ascii_eqb_false c "0") by done. simpl.
      split; intros _; [by right|left; lia].
Qed.

Lemma digits_value_pos ds :
  only_digits ds = true -> 0 < JS.digits_value ds <-> some_nonzero_digit ds = true.
Proof.
  intros H. unfold JS.digits_value. rewrite digits_value_from_pos by done. 
  split; [intros [?|?]; [lia|done]|auto].
Qed.

(** The number that a plain numeral denotes: its digits, negated after a
    minus sign, with the exponent of its fraction. *)
Lemma parse_decimal_digits neg c u :
  JS.is_digit c = true -> only_digits u = true ->
  forall s, JS.split_sign s = (neg, String c u) ->
  JS.parse_decimal s = Some (JS.Fin (JS.signed neg (JS.digits_value (String c u))) 0).
Proof.
  intros Hc Hu s Hs. unfold JS.parse_decimal. rewrite Hs.
  rewrite not_Infinity by auto.
  rewrite span_digits_all by (simpl; by rewrite Hc, Hu).
  rewrite append_nil_r. done.
Qed.

Lemma parse_decimal_fraction neg a b :
  only_digits a = true -> only_digits b = true -> b <> "" ->
  forall s, JS.split_sign s = (neg, (a ++ String "." b)%string) ->
  JS.parse_decimal s
  = Some (JS.Fin (JS.signed neg (JS.digits_value (a ++ b)))
                 (0 - Z.of_nat (String.length b))).
Proof.
  intros Ha Hb Hne s Hs. unfold JS.parse_decimal. rewrite Hs.
  assert (((a ++ String "." b) =? "Infinity")%string = false) as ->.
  { destruct a as [|c a]; [by apply not_Infinity; right|].
    rewrite append_cons. apply not_Infinity. left.
    simpl in Ha. by apply andb_true_iff in Ha as [? _]. }
  rewrite span_digits_append by done.
  rewrite span_digits_all by done.
  destruct (a ++ b)%string as [|x y] eqn:E; [|done].
  exfalso. destruct a; [by rewrite append_nil_l in E|by rewrite append_cons in E].
Qed.

Lemma StringToNumber_numeral s :
  validator.isNumeric s = true ->
  exists ds ex,
    JS.StringToNumber s
    = JS.to_double (JS.Fin (JS.signed (starts_with_minus s) (JS.digits_value ds)) ex)
    /\ only_digits ds = true
    /\ some_nonzero_digit s = some_nonzero_digit ds
    /\ - Z.of_nat (String.length s) <= ex <= 0.
Proof.
  intros (neg & r & Hs & Hshape)%isNumeric_shape.
  (* the text is not empty, starts below 128 and ends with a digit *)
  assert (exists ds ex,
             JS.parse_decimal s = Some (JS.Fin (JS.signed neg (JS.digits_value ds)) ex)
             /\ only_digits ds = true
             /\ some_nonzero_digit r = some_nonzero_digit ds
             /\ - Z.of_nat (String.length r) <= ex <= 0
             /\ (exists c u, r = String c u /\ (JS.is_digit c = true \/ c = "."%char))
             /\ (exists a b, r = (a ++ b)%string /\ only_digits b = true /\ b <> ""))
    as (ds & ex & Hparse & Hds & Hsome & Hex & (c & u & Hr & Hc)
        & (a & b & Hab & Hb & Hbne)).
  { destruct Hshape as [(c & u & -> & Hc & Hu)|(a & b & -> & Ha & Hb & Hne)].
    - exists (String c u), 0. split_and!.
      + by apply parse_decimal_digits.
      + simpl. by rewrite Hc, Hu.
      + done.
      + lia.
      + lia.
      + exists c, u. auto.
      + exists "", (String c u). split_and!; try done. simpl. by rewrite Hc, Hu.
    - exists (a ++ b)%string, (0 - Z.of_nat (String.length b)). split_and!.
      + by apply parse_decimal_fraction.
      + by rewrite only_digits_append, Ha, Hb.
      + rewrite !some_nonzero_digit_append. done.
      + rewrite !length_append. simpl String.length. lia.
      + lia.
      + destruct a as [|c a].
        * exists "."%char, b. auto.
        * exists c, (a ++ String "." b)%string. rewrite append_cons. split; [done|].
          left. simpl in Ha. by apply andb_true_iff in Ha as [? _].
      + exists (a ++ ".")%string, b. by rewrite append_assoc. }
  exists ds, ex.
  assert (starts_with_minus s = neg /\ some_nonzero_digit s = some_nonzero_digit r
          /\ exists c0 u0, s = String c0 u0 /\ (N_of_ascii c0 < 128)%N
                           /\ JS.is_ws1 (N_of_ascii c0) = false
                           /\ (c0 = "0"%char -> s = r)
                           /\ exists pre, s = (pre ++ r)%string)
    as (Hminus & Hsome' & c0 & u0 & Hs0 & Hlt & Hws & Hzero & pre & Hpre).
  { destruct (split_sign_spec s neg r Hs) as [(-> & -> & Hm & _)|[[-> ->]|[-> ->]]].
    - split_and!; try done. exists c, u. split; [done|].
      assert ((N_of_ascii c < 128)%N /\ JS.is_ws1 (N_of_ascii c) = false) as [??].
      { destruct Hc as [Hc | ->]; [by apply digit_not_ws|done]. }
      split_and!; try done. by exists "".
    - split_and!; try done. exists "+"%char, r. split_and!; try done. by exists "+".
    - split_and!; try done. exists "-"%char, r. split_and!; try done. by exists "-". }
  split_and!; [|done|congruence|rewrite Hpre, length_append; lia|lia].
  assert (JS.trim s = s) as Htrim.
  { destruct (rev_last_digit (pre ++ a) b Hb Hbne) as (c' & u' & Hrev & Hc').
    rewrite append_assoc, <- Hab, <- Hpre, Hs0 in Hrev.
    rewrite Hs0. by apply (trim_numeral c0 u0 c' u'). }
  unfold JS.StringToNumber. rewrite Htrim, Hs0, <- Hs0.
  assert (JS.parse_nondecimal s = None) as ->.
  { destruct (decide (c0 = "0"%char)) as [Hz|Hnz].
    - assert (exists v, s = String "0" v /\ r = String "0" v) as (v & Hs1 & Hr1).
      { exists u. rewrite (Hzero Hz), Hr. rewrite (Hzero Hz), Hr in Hs0.
        by simplify_eq. }
      assert (match v with
              | String p _ => JS.is_digit p = true \/ p = "."%char
              | EmptyString => True
              end) as Hp.
      { destruct Hshape as [(c1 & u1 & Hr2 & _ & Hu1)|(a1 & b1 & Hr2 & Ha1 & _ & _)];
          rewrite Hr1 in Hr2.
        - simplify_eq. destruct u1 as [|p u1]; [done|]. left.
          simpl in Hu1. by apply andb_true_iff in Hu1 as [? _].
        - destruct a1 as [|x [|p a1]].
          + by rewrite append_nil_l in Hr2.
          + rewrite append_cons, append_nil_l in Hr2. simplify_eq. by right.
          + rewrite !append_cons in Hr2. simplify_eq. left.
            simpl in Ha1. by apply andb_true_iff in Ha1 as [? _]. }
      rewrite Hs1. destruct v as [|p v]; [done|]. by apply parse_nondecimal_zero.
    - rewrite Hs0. by apply parse_nondecimal_other. }
  rewrite Hparse. simpl. by rewrite Hminus.
Qed.

(** Within 300 decimal places a number that is not zero does not round to
    zero, so its sign is that of its digits. *)
Lemma above_zero_double m e :
  -300 <= e -> JS.number_lt zero (JS.to_double (JS.Fin m e)) = true <-> 0 < m.
Proof.
  intros He. unfold JS.to_double, JS.underflows.
  destruct (0 <=? e) eqn:E.
  - destruct (m =? 0) eqn:Em.
    + apply Z.eqb_eq in Em. subst. split; [done|lia].
    + apply Z.eqb_neq in Em.
      destruct (JS.overflows m e); [|apply above_zero].
      destruct (m <? 0) eqn:Es; [apply Z.ltb_lt in Es|apply Z.ltb_ge in Es];
        split; try done; lia.
  - apply Z.leb_gt in E.
    assert (10 ^ (- e) < 2 ^ 1075) as Hpow.
    { apply Z.le_lt_trans with (10 ^ 300); [apply Z.pow_le_mono_r; lia|].
      by apply Z.ltb_lt. }
    destruct (Z.abs m * 2 ^ 1075 <=? 10 ^ (- e)) eqn:Eu.
    + apply Z.leb_le in Eu. split; [done|]. intros Hm. nia.
    + apply Z.leb_gt in Eu.
      destruct (JS.overflows m e); [|apply above_zero].
      destruct (m <? 0) eqn:Es; [apply Z.ltb_lt in Es|apply Z.ltb_ge in Es];
        split; try done; lia.
Qed.

(** ** Text forms that are empty *)

Lemma append_nonempty_r (a b : string) : b <> "" -> (a ++ b)%string <> "".
Proof. intros Hb. destruct a; [done|]. by rewrite append_cons. Qed.

Lemma positive_to_string_nonempty m e : 0 < m -> JS.positive_to_string m e <> "".
Proof.
  intros Hm. destruct (significant_digits m Hm) as (c & r & z & Hs & _).
  unfold JS.positive_to_string. rewrite Hs.
  repeat case_match; try (by rewrite append_cons);
    apply append_nonempty_r; try done; by apply append_nonempty_r.
Qed.

Lemma NumberToString_nonempty n : JS.NumberToString n <> "".
Proof.
  destruct n as [|[]|m e]; try done. unfold JS.NumberToString.
  destruct (m =? 0) eqn:E0; [done|].
  destruct (m <? 0) eqn:E1; [done|].
  apply positive_to_string_nonempty. apply Z.eqb_neq in E0. apply Z.ltb_ge in E1. lia.
Qed.

(** Apart from arrays, the text form that the validators see is empty for
    an absent field, null, the empty text and NaN, and for nothing else. *)
Lemma toString_empty v :
  is_array v = false ->
  toString v = ""
  <-> v = JS.VUndefined \/ v = JS.VNull \/ v = JS.VStr "" \/ v = JS.VNum JS.NaN.
Proof.
  intros Ha. split.
  - destruct v as [| |[]|n|s|l|]; try done; auto.
    + destruct n as [|b|m e]; [auto| |].
      * intros H. by destruct b.
      * rewrite toString_number. intros H. by apply NumberToString_nonempty in H.
    + rewrite toString_VStr. intros ->. auto.
  - intros [->|[->|[->| ->]]]; reflexivity.
Qed.

(** ** Keys in text form *)

Lemma digit_uint c :
  JS.is_digit c = true ->
  exists f : Decimal.uint -> Decimal.uint,
    (forall d, NilEmpty.string_of_uint (f d) = String c (NilEmpty.string_of_uint d))
    /\ (forall d, f d <> Decimal.Nil)
    /\ (c <> "0"%char -> forall d, Decimal.unorm (f d) = f d).
Proof.
  intros Hc. destruct c as [[] [] [] [] [] [] [] []]; try done;
    first
      [ exists Decimal.D0; split_and!; [reflexivity|done|intros; done]
      | exists Decimal.D1; split_and!; [reflexivity|done|intros; reflexivity]
      | exists Decimal.D2; split_and!; [reflexivity|done|intros; reflexivity]
      | exists Decimal.D3; split_and!; [reflexivity|done|intros; reflexivity]
      | exists Decimal.D4; split_and!; [reflexivity|done|intros; reflexivity]
      | exists Decimal.D5; split_and!; [reflexivity|done|intros; reflexivity]
      | exists Decimal.D6; split_and!; [reflexivity|done|intros; reflexivity]
      | exists Decimal.D7; split_and!; [reflexivity|done|intros; reflexivity]
      | exists Decimal.D8; split_and!; [reflexivity|done|intros; reflexivity]
      | exists Decimal.D9; split_and!; [reflexivity|done|intros; reflexivity] ].
Qed.

Lemma digits_uint s :
  only_digits s = true -> exists d, NilEmpty.string_of_uint d = s.
Proof.
  induction s as [|c s IH]; [by exists Decimal.Nil|].
  simpl. intros [Hc Hs]%andb_true_iff. destruct (IH Hs) as [d <-].
  destruct (digit_uint c Hc) as (f & Hf & _). by exists (f d).
Qed.

(** Digits that start with a digit other than 0 are the digits of the
    number they denote. *)
Lemma canonical_digits c r :
  JS.is_digit c = true -> c <> "0"%char -> only_digits r = true ->
  JS.decimal_digits (JS.digits_value (String c r)) = String c r.
Proof.
  intros Hc Hnz Hr. destruct (digits_uint r Hr) as [d <-].
  destruct (digit_uint c Hc) as (f & Hf & Hnil & Hnorm).
  rewrite <- Hf, <- of_uint_value. unfold JS.decimal_digits.
  rewrite N2Z.id, DecimalPos.Unsigned.to_of, (Hnorm Hnz).
  by apply string_of_uint_nonnil.
Qed.

Lemma isInt_digits s :
  only_digits s = true -> s <> "" -> validator.isInt s = true.
Proof.
  intros Hs Hne. destruct s as [|c r]; [done|].
  pose proof Hs as Hall. simpl in Hs. apply andb_true_iff in Hs as [Hc Hr].
  unfold validator.isInt. rewrite split_sign_digit by done.
  by rewrite all_digits_only.
Qed.

Lemma isInt_shape s :
  validator.isInt s = true ->
  exists neg r, JS.split_sign s = (neg, r) /\ r <> "" /\ only_digits r = true.
Proof.
  unfold validator.isInt. destruct (JS.split_sign s) as [neg r] eqn:Hs.
  intros [Hne Hr]%andb_true_iff. exists neg, r. split; [done|].
  split; [|by apply all_digits_inv]. by intros ->.
Qed.

Lemma digits_value_zeros k d : JS.digits_value (JS.zeros k ++ d) = JS.digits_value d.
Proof.
  unfold JS.digits_value. by rewrite digits_value_from_append, digits_value_from_zeros.
Qed.

Lemma decimal_digits_digits n :
  0 <= n ->
  exists c r, JS.decimal_digits n = String c r
              /\ JS.is_digit c = true /\ only_digits r = true.
Proof.
  intros Hn. destruct (decide (n = 0)) as [->|Hnz].
  - by exists "0"%char, "".
  - destruct (decimal_digits_shape n) as (c & r & H & Hc & _ & Hr); [lia|]. eauto.
Qed.

(** The digits of a number behind leading zeros are digits, at least
    one. *)
Lemma padded_digits k n :
  0 <= n ->
  exists c r, (JS.zeros k ++ JS.decimal_digits n)%string = String c r
              /\ JS.is_digit c = true /\ only_digits r = true.
Proof.
  intros Hn. destruct (decimal_digits_digits n Hn) as (c & r & -> & Hc & Hr).
  destruct k as [|k].
  - rewrite append_nil_l. eauto.
  - change (JS.zeros (S k)) with (String "0" (JS.zeros k)). rewrite append_cons.
    eexists _, _. split; [done|]. split; [done|].
    rewrite only_digits_append, only_digits_zeros. simpl. by rewrite Hc, Hr.
Qed.

(** The key that the handlers read behind a sign. *)
Lemma key_of_digits neg ds s :
  JS.split_sign s = (neg, ds) -> only_digits ds = true -> ds <> "" ->
  validator.isInt s = true
  /\ Handlers.int_of_string s = Some (JS.signed neg (JS.digits_value ds)).
Proof.
  intros Hs Hds Hne.
  assert (validator.isInt s = true) as Hi.
  { unfold validator.isInt. rewrite Hs, all_digits_only by done.
    apply isEmpty_false in Hne. by rewrite Hne. }
  split; [done|]. unfold Handlers.int_of_string. by rewrite Hi, Hs.
Qed.

(** A numeral of an integer passes the predicate of the key rule, and the
    handlers read that integer from it. *)
Lemma denotes_key s i :
  denotes s i -> validator.isInt s = true /\ Handlers.int_of_string s = Some i.
Proof.
  intros [k n Hn|k n Hn|k n Hn];
    destruct (padded_digits k n Hn) as (c & r & Hd & Hc & Hr);
    assert (only_digits (JS.zeros k ++ JS.decimal_digits n) = true) as Hall
      by (rewrite Hd; simpl; by rewrite Hc, Hr);
    assert ((JS.zeros k ++ JS.decimal_digits n)%string <> "") as Hne
      by (by rewrite Hd);
    assert (JS.digits_value (JS.zeros k ++ JS.decimal_digits n) = n) as Hv
      by (by rewrite digits_value_zeros, decimal_digits_value).
  - rewrite <- Hv at 3.
    apply (key_of_digits false); [|done|done].
    rewrite Hd. by apply split_sign_digit.
  - rewrite <- Hv at 3. by apply (key_of_digits false).
  - rewrite <- Hv at 3. by apply (key_of_digits true).
Qed.

Lemma denotes_nonempty s i : denotes s i -> s <> "".
Proof. intros H%denotes_key. intros ->. by destruct H. Qed.

(** Digits are leading zeros followed by the digits of their value. *)
Lemma digits_padded r :
  only_digits r = true -> r <> "" ->
  exists k, r = (JS.zeros k ++ JS.decimal_digits (JS.digits_value r))%string.
Proof.
  induction r as [|c t IH]; [done|]. intros Hr _.
  pose proof Hr as Hall. simpl in Hr. apply andb_true_iff in Hr as [Hc Ht].
  destruct (decide (c = "0"%char)) as [->|Hnz].
  - destruct t as [|c' t']; [by exists O|].
    destruct (IH Ht) as [k Hk]; [done|]. exists (S k).
    change (JS.digits_value (String "0" (String c' t')))
      with (JS.digits_value (String c' t')).
    change (JS.zeros (S k)) with (String "0" (JS.zeros k)).
    rewrite append_cons. by f_equal.
  - exists O. rewrite append_nil_l. symmetry. by apply canonical_digits.
Qed.

(** Every text that the predicate of the key rule accepts is a numeral of
    an integer. *)
Lemma isInt_denotes s : validator.isInt s = true -> exists i, denotes s i.
Proof.
  intros (neg & r & Hs & Hne & Hr)%isInt_shape.
  destruct (digits_padded r Hr Hne) as [k Hk].
  pose proof (digits_value_bound r Hr) as [Hge _].
  destruct (split_sign_spec s neg r Hs) as [(-> & _)|[[-> _]|[-> _]]].
  - exists (JS.digits_value r). rewrite Hk at 1. by constructor.
  - exists (JS.digits_value r). rewrite Hk at 1.
    by apply (denotes_plus k (JS.digits_value r)).
  - exists (- JS.digits_value r). rewrite Hk at 1.
    by apply (denotes_minus k (JS.digits_value r)).
Qed.

(** ** Numbers printed as one digit *)

Lemma drop_zeros_head r r' z :
  JS.drop_zeros r = (r', z) -> forall u, r' <> String "0" u.
Proof.
  revert r' z. induction r as [|c r IH]; intros r' z H u; simpl in H.
  - by simplify_eq.
  - destruct (decide (c = "0"%char)) as [->|Hc].
    + destruct (JS.drop_zeros r) as [v k] eqn:E. simplify_eq. by eapply IH.
    + assert (JS.drop_zeros (String c r) = (String c r, O)) as Hd.
      { simpl. destruct c as [[] [] [] [] [] [] [] []]; try done. }
      simpl in Hd. rewrite Hd in H. simplify_eq. intros ?. by simplify_eq.
Qed.

Lemma digit_val_zero c : JS.is_digit c = true -> JS.digit_val c = 0 -> c = "0"%char.
Proof.
  intros Hc H0. destruct (decide (c = "0"%char)) as [|Hnz]; [done|].
  pose proof (digit_val_nonzero c Hc Hnz). lia.
Qed.

(** The last significant digit is not 0. *)
Lemma significant_last n t z :
  0 < n -> JS.strip_trailing_zeros (JS.decimal_digits n) = (t, z) ->
  JS.digits_value t mod 10 <> 0.
Proof.
  intros Hn Hs.
  destruct (significant_digits n Hn) as (c & r & z' & Hs' & Hc & Hnz & Hr & _).
  rewrite Hs in Hs'. injection Hs' as -> ->.
  unfold JS.strip_trailing_zeros in Hs.
  destruct (JS.drop_zeros (String.rev (JS.decimal_digits n))) as [u k] eqn:E.
  injection Hs as Ht _. pose proof (drop_zeros_head _ _ _ E) as Hhead.
  assert (only_digits u = true) as Hu.
  { rewrite <- only_digits_rev, Ht. simpl. by rewrite Hc, Hr. }
  destruct u as [|x u]; [done|].
  rewrite <- Ht, rev_cons. unfold JS.digits_value.
  rewrite digits_value_from_append. simpl JS.digits_value_from.
  simpl in Hu. apply andb_true_iff in Hu as [Hx Hu].
  pose proof (digit_val_range x Hx).
  intros Hmod.
  assert (JS.digit_val x = 0) as Hz.
  { rewrite Z.add_comm, Z.mul_comm, Z.mod_add in Hmod by lia.
    rewrite Z.mod_small in Hmod by lia. done. }
  apply digit_val_zero in Hz; [|done]. subst x. by apply (Hhead u).
Qed.

Lemma pow10_mod k : 1 <= k -> 10 ^ k mod 10 = 0.
Proof.
  intros Hk. replace k with (1 + (k - 1)) by lia.
  rewrite Z.pow_add_r by lia. change (10 ^ 1) with 10.
  rewrite Z.mul_comm. apply Z.mod_mul. lia.
Qed.

(** A positive number is printed as [1] exactly when it is one. *)
Lemma positive_to_string_one m e :
  0 < m -> JS.positive_to_string m e = "1" <-> is_one m e.
Proof.
  intros Hm.
  destruct (significant_digits m Hm) as (c & r & z & Hs & Hc & Hnz & Hr & Hv).
  pose proof (significant_last m _ _ Hm Hs) as Hlast.
  pose proof (digits_value_lower c r Hc Hnz Hr) as Hlo.
  assert (only_digits (String c r) = true) as Ht by (simpl; by rewrite Hc, Hr).
  pose proof (digits_value_bound _ Ht) as [_ Hhi].
  set (v := JS.digits_value (String c r)) in *.
  set (k := Z.of_nat (String.length (String c r))) in *.
  assert (k = Z.of_nat (String.length r) + 1) as Hk by (subst k; simpl; lia).
  assert (String c r = "1" <-> v = 1 /\ k = 1) as Hshape.
  { split.
    - intros Heq. subst v k. rewrite Heq. done.
    - intros [Hv1 Hk1]. destruct r; [|simpl in Hk; lia].
      subst v. unfold JS.digits_value in Hv1. simpl in Hv1.
      f_equal. unfold JS.digit_val in Hv1.
      rewrite <- (ascii_N_embedding c). replace (N_of_ascii c) with 49%N by lia. done. }
  assert (is_one m e <-> (v = 1 /\ k = 1) /\ e + Z.of_nat z + k = 1) as ->.
  { unfold is_one.
    assert (JS.number_lt (JS.Fin m e) (JS.Fin 1 0) = false <-> 0 < e + Z.of_nat z + k)
      as ->.
    { rewrite <- not_true_iff_false, (below_power m e 0) by done.
      unfold point_position. rewrite Hs. subst k. lia. }
    unfold JS.number_lt. rewrite Z.ltb_ge, Z.mul_1_l, Hv.
    set (e0 := Z.min 0 e).
    assert (0 <= e - e0 /\ 0 <= 0 - e0) as [He1 He2] by lia.
    rewrite <- Z.mul_assoc, <- Z.pow_add_r by lia.
    set (q := Z.of_nat z + (e - e0)).
    assert (0 <= q) as Hq by (subst q; lia).
    pose proof (pow10_pos q Hq) as Hpq.
    split.
    - intros [Hpos Hle].
      assert (e + Z.of_nat z + k <= 1) as Hn.
      { destruct (Z_le_gt_dec (e + Z.of_nat z + k) 1) as [|Hgt]; [done|exfalso].
        assert (10 ^ (0 - e0 + 1) <= 10 ^ (Z.of_nat (String.length r) + q)) as H1
          by (apply Z.pow_le_mono_r; subst q; lia).
        rewrite (Z.pow_add_r 10 (Z.of_nat _) q) in H1 by lia.
        rewrite (Z.pow_add_r 10 (0 - e0) 1) in H1 by lia. change (10 ^ 1) with 10 in H1.
        pose proof (pow10_pos (0 - e0) He2). nia. }
      assert (e + Z.of_nat z + k = 1) as Hn1 by lia.
      split; [|done].
      replace (0 - e0) with (Z.of_nat (String.length r) + q) in Hle by (subst q; lia).
      rewrite (Z.pow_add_r 10 (Z.of_nat _) q) in Hle by lia.
      assert (v <= 10 ^ Z.of_nat (String.length r)) as Hv' by nia.
      assert (v = 10 ^ Z.of_nat (String.length r)) as Hveq by lia.
      destruct (decide (String.length r = O)) as [Hr0|Hr0].
      + rewrite Hr0 in Hveq. simpl in Hveq. lia.
      + exfalso. apply Hlast. rewrite Hveq. apply pow10_mod. lia.
    - intros [[Hv1 Hk1] Hn]. split; [lia|].
      rewrite Hv1, Z.mul_1_l. apply Z.pow_le_mono_r; subst q; lia. }
  rewrite <- Hshape.
  unfold JS.positive_to_string. rewrite Hs.
  change (Z.of_nat (String.length (String c r))) with k.
  set (n := e + Z.of_nat z + k).
  assert (forall x : string, (2 <= String.length x)%nat -> x <> "1") as Hlong.
  { intros x Hx ->. simpl in Hx. lia. }
  assert (String c r = "1" /\ n = 1 -> (k <=? n) && (n <=? 21) = true) as Hone.
  { intros [Heq ->]. apply Hshape in Heq as [_ ->]. done. }
  destruct ((k <=? n) && (n <=? 21)) eqn:HA.
  { apply andb_true_iff in HA as [H1 H2]. apply Z.leb_le in H1, H2.
    rewrite append_cons. split.
    - intros Heq. injection Heq as -> Hrest.
      destruct r; [|by rewrite append_cons in Hrest].
      split; [done|]. rewrite append_nil_l in Hrest.
      destruct (Z.to_nat (n - k)) eqn:En; [|done]. simpl in Hk. lia.
    - intros [Heq ->]. injection Heq as -> ->.
      assert (k = 1) as -> by (simpl in Hk; lia). done. }
  split; [|intros H; apply Hone in H; congruence].
  intros Heq. exfalso. revert Heq.
  destruct ((0 <? n) && (n <=? 21)) eqn:HB.
  { apply andb_true_iff in HB as [H1 _]. apply Z.ltb_lt in H1.
    apply Hlong. rewrite !length_append.
    destruct (Z.to_nat n) eqn:En; [lia|]. simpl. lia. }
  destruct ((-6 <? n) && (n <=? 0)) eqn:HC.
  { apply Hlong. rewrite !length_append. simpl. lia. }
  destruct (k =? 1); apply Hlong; rewrite !length_append; simpl; lia.
Qed.

Lemma positive_to_string_head m e :
  0 < m ->
  exists x y, JS.positive_to_string m e = String x y /\ JS.is_digit x = true
              /\ (x = "0"%char -> y <> "").
Proof.
  intros Hm. destruct (significant_digits m Hm) as (c & r & z & Hs & Hc & Hnz & Hr & _).
  unfold JS.positive_to_string. rewrite Hs.
  set (k := Z.of_nat (String.length (String c r))).
  set (n := e + Z.of_nat z + k).
  destruct ((k <=? n) && (n <=? 21)).
  { rewrite append_cons. eexists _, _. split_and!; [reflexivity|done|by intros ?]. }
  destruct ((0 <? n) && (n <=? 21)) eqn:HB.
  { apply andb_true_iff in HB as [H1 _]. apply Z.ltb_lt in H1.
    destruct (Z.to_nat n) eqn:En; [lia|]. simpl JS.take_str. rewrite append_cons.
    eexists _, _. split_and!; [reflexivity|done|by intros ?]. }
  destruct ((-6 <? n) && (n <=? 0)).
  { exists "0"%char, (String "." (JS.zeros (Z.to_nat (- n)) ++ String c r)).
    split_and!; [reflexivity|done|done]. }
  destruct (k =? 1); simpl JS.take_str; rewrite append_cons;
    eexists _, _; (split_and!; [reflexivity|done|by intros ?]).
Qed.

(** ** Dispatch to the routes *)

Lemma guarded_responds rules h : responds h -> responds (run (guarded rules h)).
Proof.
  intros Hh req t. rewrite run_guarded.
  destruct (validation_errors req ++ rule_failures rules req)%list; [apply Hh|eauto].
Qed.

Lemma getProducts_responds : responds Handlers.getProducts.
Proof. intros req t. unfold Handlers.getProducts. eauto. Qed.

Lemma getProductById_responds : responds Handlers.getProductById.
Proof.
  intros req t. unfold Handlers.getProductById.
  destruct (Handlers.findByPk req t) as [[i p]|]; eauto.
Qed.

Lemma createProduct_responds : responds Handlers.createProduct.
Proof. intros req t. unfold Handlers.createProduct. eauto. Qed.

Lemma updateProduct_responds : responds Handlers.updateProduct.
Proof.
  intros req t. unfold Handlers.updateProduct.
  destruct (Handlers.findByPk req t) as [[i p]|]; eauto.
Qed.

Lemma updateAvailability_responds : responds Handlers.updateAvailability.
Proof.
  intros req t. unfold Handlers.updateAvailability.
  destruct (Handlers.findByPk req t) as [[i p]|]; eauto.
Qed.

Lemma deleteProduct_responds : responds Handlers.deleteProduct.
Proof.
  intros req t. unfold Handlers.deleteProduct.
  destruct (Handlers.findByPk req t) as [[i p]|]; eauto.
Qed.

Create HintDb handlers.
#[local] Hint Resolve guarded_responds getProducts_responds getProductById_responds
  createProduct_responds updateProduct_responds updateAvailability_responds
  deleteProduct_responds : handlers.

Lemma dispatch_miss r rest req t :
  Router.matches r req = None ->
  Router.dispatch (r :: rest) req t = Router.dispatch rest req t.
Proof. intros H. simpl. by rewrite H. Qed.

Lemma dispatch_hit r rest req req' t :
  Router.matches r req = Some req' ->
  responds (run (Router.stack r)) ->
  Router.dispatch (r :: rest) req t = run (Router.stack r) req' t.
Proof.
  intros H Hr. simpl. rewrite H.
  destruct (Hr req' t) as (res & t' & ->). done.
Qed.

Lemma dispatch_none routes req t :
  Forall (fun r => Router.matches r req = None) routes ->
  Router.dispatch routes req t = Next req t.
Proof.
  induction 1 as [|r routes Hr _ IH]; [done|].
  by rewrite dispatch_miss.
Qed.

Lemma nonempty_eqb s : s <> "" -> (s =? "")%string = false.
Proof. intros H. by apply String.eqb_neq. Qed.

(** The two patterns against the two kinds of path. *)
Lemma match_root req :
  Router.match_path Router.Root req
  = if root_path (path req) then Some (set_params req ∅) else None.
Proof.
  unfold Router.match_path, root_path.
  destruct (path req) as [|a [|b l]]; [done| |].
  - destruct a as [|c a]; [done|]. by rewrite !bool_decide_eq_false_2.
  - rewrite !bool_decide_eq_false_2 by done. by destruct a.
Qed.

Lemma match_key req :
  Router.match_path Router.WithId req
  = (fun s => set_params req (id_param s)) <$> path_key (path req).
Proof.
  unfold Router.match_path, path_key.
  destruct (path req) as [|a [|b [|c l]]]; [done| | |].
  - by destruct (a =? "")%string.
  - destruct b as [|x b]; [|done]. by destruct (a =? "")%string.
  - by destruct b as [|x b].
Qed.

(** A path is not the root and a key at once. *)
Lemma root_not_key p : root_path p = true -> path_key p = None.
Proof.
  unfold root_path. intros [H|H]%orb_true_iff; apply bool_decide_eq_true in H; by subst.
Qed.

Lemma key_not_root p s : path_key p = Some s -> root_path p = false.
Proof.
  intros H. destruct (root_path p) eqn:E; [|done].
  apply root_not_key in E. congruence.
Qed.

Lemma path_key_one s : s <> "" -> path_key [s] = Some s.
Proof. intros H. unfold path_key. by rewrite nonempty_eqb. Qed.

Lemma matches_unfold v pat ms req :
  Router.matches {| Router.verb := v; Router.pattern := pat; Router.stack := ms |} req
  = if Router.handles v (method req) then Router.match_path pat req else None.
Proof. reflexivity. Qed.

#[local] Arguments Router.match_path : simpl never.

(** Skips the routes whose verb or pattern differs, then enters the one
    that matches. *)
Ltac see_route Hm Hr Hk :=
  rewrite matches_unfold, Hm; simpl; rewrite ?match_root, ?match_key, ?Hr, ?Hk; simpl.

Ltac enter_route Hm Hr Hk :=
  unfold Router.router, Router.routes, Router.get, Router.post, Router.put,
    Router.patch, Router.delete;
  repeat (rewrite dispatch_miss by (see_route Hm Hr Hk; done));
  erewrite dispatch_hit; [ | see_route Hm Hr Hk; reflexivity | ].

Lemma reads_cases m : Router.handles GET m = true -> m = GET \/ m = HEAD.
Proof. destruct m; try done; auto. Qed.

Lemma router_list req t :
  Router.handles GET (method req) = true -> root_path (path req) = true ->
  Router.router req t = Handlers.getProducts (set_params req ∅) t.
Proof.
  intros Hm Hr. pose proof (root_not_key _ Hr) as Hk.
  destruct (reads_cases _ Hm) as [Hg|Hg];
    (enter_route Hg Hr Hk;
     [ apply run_last
     | intros q u; cbn [Router.stack]; rewrite run_last; apply getProducts_responds ]).
Qed.

Lemma router_get req t s :
  Router.handles GET (method req) = true -> path_key (path req) = Some s ->
  Router.router req t
  = run (guarded [Router.id_rule] Handlers.getProductById)
        (set_params req (id_param s)) t.
Proof.
  intros Hm Hk. pose proof (key_not_root _ _ Hk) as Hr.
  destruct (reads_cases _ Hm) as [Hg|Hg]; enter_route Hg Hr Hk; try done;
    apply (guarded_responds [Router.id_rule]); auto with handlers.
Qed.

Lemma router_create req t :
  method req = POST -> root_path (path req) = true ->
  Router.router req t
  = run (guarded [Router.name_rule; Router.price_rule] Handlers.createProduct)
        (set_params req ∅) t.
Proof.
  intros Hm Hr. pose proof (root_not_key _ Hr) as Hk.
  enter_route Hm Hr Hk; [done|].
  apply (guarded_responds [Router.name_rule; Router.price_rule]). auto with handlers.
Qed.

Lemma router_update req t s :
  method req = PUT -> path_key (path req) = Some s ->
  Router.router req t
  = run (guarded [Router.id_rule; Router.name_rule; Router.price_rule;
                  Router.availability_rule] Handlers.updateProduct)
        (set_params req (id_param s)) t.
Proof.
  intros Hm Hk. pose proof (key_not_root _ _ Hk) as Hr.
  enter_route Hm Hr Hk; [done|].
  apply (guarded_responds [Router.id_rule; Router.name_rule; Router.price_rule;
                           Router.availability_rule]). auto with handlers.
Qed.

Lemma router_patch req t s :
  method req = PATCH -> path_key (path req) = Some s ->
  Router.router req t
  = run (guarded [Router.id_rule] Handlers.updateAvailability)
        (set_params req (id_param s)) t.
Proof.
  intros Hm Hk. pose proof (key_not_root _ _ Hk) as Hr.
  enter_route Hm Hr Hk; [done|].
  apply (guarded_responds [Router.id_rule]). auto with handlers.
Qed.

Lemma router_delete req t s :
  method req = DELETE -> path_key (path req) = Some s ->
  Router.router req t
  = run (guarded [Router.id_rule] Handlers.deleteProduct)
        (set_params req (id_param s)) t.
Proof.
  intros Hm Hk. pose proof (key_not_root _ _ Hk) as Hr.
  enter_route Hm Hr Hk; [done|].
  apply (guarded_responds [Router.id_rule]). auto with handlers.
Qed.

(** A request whose verb and path are those of no route is passed on. *)
Lemma router_passes_unrouted req t :
  routed req = false -> Router.router req t = Next req t.
Proof.
  unfold routed, key_path. intros Hr. apply dispatch_none.
  unfold Router.routes, Router.get, Router.post, Router.put, Router.patch,
    Router.delete.
  rewrite !Forall_cons, !matches_unfold, match_root, match_key.
  destruct (method req), (root_path (path req)), (path_key (path req));
    simpl in *; try done; split_and!; try done; apply Forall_nil_2.
Qed.

Lemma router_responds_routed req t :
  routed req = true -> exists res t', Router.router req t = Respond res t'.
Proof.
  unfold routed, key_path.
  destruct (method req) eqn:Hm, (root_path (path req)) eqn:Hr,
    (path_key (path req)) as [s|] eqn:Hk; simpl; try done; intros _;
    try (apply root_not_key in Hr; congruence).
  - rewrite router_list by (by rewrite ?Hm). apply getProducts_responds.
  - rewrite (router_get req t s) by (by rewrite ?Hm).
    apply (guarded_responds [Router.id_rule]). auto with handlers.
  - rewrite router_list by (by rewrite ?Hm). apply getProducts_responds.
  - rewrite (router_get req t s) by (by rewrite ?Hm).
    apply (guarded_responds [Router.id_rule]). auto with handlers.
  - rewrite router_create by done.
    apply (guarded_responds [Router.name_rule; Router.price_rule]). auto with handlers.
  - rewrite (router_update req t s) by done.
    apply (guarded_responds [Router.id_rule; Router.name_rule; Router.price_rule;
                             Router.availability_rule]). auto with handlers.
  - rewrite (router_patch req t s) by done.
    apply (guarded_responds [Router.id_rule]). auto with handlers.
  - rewrite (router_delete req t s) by done.
    apply (guarded_responds [Router.id_rule]). auto with handlers.
Qed.

(** ** The rules of the router *)

#[local] Arguments fails : simpl never.

(** A standard validator passes a value when its predicate holds of every
    text form it is given. *)
Lemma standard_passes p negated m v :
  fails (StandardValidation p negated m) v = false
  <-> standard_ok (fun str => if negated then negb (p str) else p str) v = true.
Proof.
  unfold standard_ok, fails. induction (values_of v) as [|x l IH]; simpl; [done|].
  rewrite orb_false_iff, andb_true_iff, IH. unfold rejects.
  destruct negated, (p (toString x)); simpl; split; intros [??]; done.
Qed.

Lemma standard_ok_impl (p q : string -> bool) v :
  (forall str, p str = true -> q str = true) ->
  standard_ok p v = true -> standard_ok q v = true.
Proof.
  intros Hpq. unfold standard_ok. rewrite !forallb_forall. auto.
Qed.

Lemma standard_ok_scalar p v : is_array v = false -> standard_ok p v = p (toString v).
Proof.
  intros Hv. unfold standard_ok. rewrite values_of_scalar by done. simpl.
  apply andb_true_r.
Qed.



Lemma name_rule_passes req :
  chain_errors Router.name_rule req = []
  <-> name_given (Handlers.body_field req "name") = true.
Proof.
  rewrite chain_errors_nil. simpl. rewrite andb_true_r, negb_true_iff.
  apply (standard_passes validator.isEmpty true).
Qed.

Lemma price_rule_passes req :
  chain_errors Router.price_rule req = []
  <-> plain_numeral (Handlers.body_field req "price") = true
      /\ JS.gt (Handlers.body_field req "price") zero = true.
Proof.
  rewrite chain_errors_nil. simpl.
  rewrite !andb_true_iff, !negb_true_iff.
  unfold isNumeric, notEmpty, custom. rewrite !standard_passes.
  change (select Router.price_rule req) with (Handlers.body_field req "price").
  unfold plain_numeral, zero, fails. rewrite negb_false_iff.
  split.
  - intros (Hn & _ & Hgt & _). done.
  - intros [Hn Hgt]. split_and!; try done.
    revert Hn. apply standard_ok_impl. intros str H.
    by rewrite (isNumeric_nonempty _ H).
Qed.

Lemma availability_rule_passes req :
  chain_errors Router.availability_rule req = []
  <-> boolean_value (Handlers.body_field req "availability") = true.
Proof.
  rewrite chain_errors_nil. simpl. rewrite andb_true_r, negb_true_iff.
  apply (standard_passes validator.isBoolean false).
Qed.

(** The failures of the rules on a value that is not an array. *)
Lemma name_rule_errors req :
  is_array (Handlers.body_field req "name") = false ->
  chain_errors Router.name_rule req
  = if empty_name (Handlers.body_field req "name") then [name_error] else [].
Proof.
  intros Ha. unfold chain_errors, empty_name. simpl.
  change (select Router.name_rule req) with (Handlers.body_field req "name").
  rewrite values_of_scalar by done. simpl. unfold rejects.
  by destruct (validator.isEmpty _).
Qed.

Lemma price_rule_errors req :
  let p := Handlers.body_field req "price" in
  is_array p = false ->
  chain_errors Router.price_rule req
  = ((if validator.isNumeric (toString p) then [] else [price_error_numeric])
     ++ (if validator.isEmpty (toString p) then [price_error_empty] else [])
     ++ (if JS.gt p zero then [] else [price_error_numeric]))%list.
Proof.
  intros p Ha. unfold chain_errors, zero. simpl.
  change (select Router.price_rule req) with p.
  rewrite values_of_scalar by done. simpl. unfold rejects.
  destruct (validator.isNumeric _), (validator.isEmpty _), (JS.gt _ _); done.
Qed.

Lemma availability_rule_errors req :
  let a := Handlers.body_field req "availability" in
  is_array a = false ->
  chain_errors Router.availability_rule req
  = if validator.isBoolean (toString a) then [] else [availability_error].
Proof.
  intros a Ha. unfold chain_errors. simpl.
  change (select Router.availability_rule req) with a.
  rewrite values_of_scalar by done. simpl. unfold rejects.
  by destruct (validator.isBoolean _).
Qed.

Lemma id_rule_errors req s :
  params req = id_param s ->
  chain_errors Router.id_rule req = if validator.isInt s then [] else [id_error].
Proof.
  intros H. unfold chain_errors, select. simpl. rewrite H.
  unfold id_param. rewrite lookup_singleton_eq. simpl. unfold rejects.
  rewrite toString_VStr. by destruct (validator.isInt s).
Qed.

Lemma create_rules_pass q :
  rule_failures [Router.name_rule; Router.price_rule] q = []
  <-> name_given (Handlers.body_field q "name") = true
      /\ plain_numeral (Handlers.body_field q "price") = true
      /\ JS.gt (Handlers.body_field q "price") zero = true.
Proof.
  unfold rule_failures. simpl flat_map. rewrite app_nil_r.
  rewrite <- name_rule_passes, <- price_rule_passes. split.
  - intros H. by apply app_eq_nil in H.
  - intros [-> ->]. done.
Qed.

Lemma update_rules_pass q :
  rule_failures [Router.id_rule; Router.name_rule; Router.price_rule;
                 Router.availability_rule] q = []
  <-> chain_errors Router.id_rule q = []
      /\ name_given (Handlers.body_field q "name") = true
      /\ (plain_numeral (Handlers.body_field q "price") = true
          /\ JS.gt (Handlers.body_field q "price") zero = true)
      /\ boolean_value (Handlers.body_field q "availability") = true.
Proof.
  unfold rule_failures. simpl flat_map. rewrite app_nil_r.
  rewrite <- name_rule_passes, <- price_rule_passes, <- availability_rule_passes.
  split.
  - intros (? & (? & (? & ?)%app_eq_nil)%app_eq_nil)%app_eq_nil. done.
  - intros (-> & -> & -> & ->). done.
Qed.

Lemma gate_closed_or_open rules h req t :
  run (guarded rules h) req t
  = Respond {| status := 400;
               payload := Errors (validation_errors req ++ rule_failures rules req) |} t
  \/ (fresh req /\ rule_failures rules req = []
      /\ run (guarded rules h) req t = h req t).
Proof.
  rewrite run_guarded.
  destruct (validation_errors req ++ rule_failures rules req)%list eqn:E; [|by left].
  apply app_eq_nil in E as [E1 E2]. right. rewrite E2, add_errors_nil. done.
Qed.

(** A fresh request that passes the rules of a route reaches its
    handler. *)
Lemma gate_open rules h req t :
  fresh req -> rule_failures rules req = [] ->
  run (guarded rules h) req t = h req t.
Proof.
  intros Hfresh Hok. rewrite run_guarded. unfold fresh in Hfresh.
  by rewrite Hfresh, Hok, add_errors_nil.
Qed.

(** ** Creating a product *)









(** ** What a request does to the table *)

(** The rules make the product that the body describes a valid one when
    its name is not an array. *)
Lemma rules_valid_product q a :
  is_array (Handlers.body_field q "name") = false ->
  name_given (Handlers.body_field q "name") = true ->
  JS.gt (Handlers.body_field q "price") zero = true ->
  valid_product {| name := Handlers.name_of (Handlers.body_field q "name");
                   price := Handlers.price_of (Handlers.body_field q "price");
                   availability := a |}.
Proof.
  intros Ha Hname Hpos. split; simpl.
  - exact Hpos.
  - unfold Handlers.name_of. unfold name_given in Hname.
    rewrite standard_ok_scalar in Hname by done. apply negb_true_iff in Hname.
    rewrite <- (toString_nonempty _ Hname). by apply isEmpty_false.
Qed.

Lemma create_step q t :
  is_array (Handlers.body_field q "name") = false ->
  step t (table_of (run (guarded [Router.name_rule; Router.price_rule]
                           Handlers.createProduct) q t)).
Proof.
  intros Ha.
  destruct (gate_closed_or_open [Router.name_rule; Router.price_rule]
              Handlers.createProduct q t) as [->|(_ & Hok & ->)]; [constructor|].
  apply create_rules_pass in Hok as (Hname & _ & Hpos).
  unfold Handlers.createProduct. simpl. apply step_insert.
  by apply rules_valid_product.
Qed.

Lemma findByPk_Some q t i p : Handlers.findByPk q t = Some (i, p) -> rows t !! i = Some p.
Proof.
  unfold Handlers.findByPk. intros H.
  destruct (params q !! "id" ≫= Handlers.int_of_string) as [j|]; simpl in H; [|done].
  destruct (rows t !! j) eqn:E; simpl in H; [|done]. by simplify_eq.
Qed.

Lemma update_step q t :
  is_array (Handlers.body_field q "name") = false ->
  step t (table_of (run (guarded [Router.id_rule; Router.name_rule; Router.price_rule;
                                  Router.availability_rule]
                           Handlers.updateProduct) q t)).
Proof.
  intros Ha.
  destruct (gate_closed_or_open
              [Router.id_rule; Router.name_rule; Router.price_rule;
               Router.availability_rule]
              Handlers.updateProduct q t) as [->|(_ & Hok & ->)]; [constructor|].
  apply update_rules_pass in Hok as (_ & Hname & [_ Hpos] & _).
  unfold Handlers.updateProduct.
  destruct (Handlers.findByPk q t) as [[i p0]|] eqn:E; simpl; [|constructor].
  apply findByPk_Some in E. eapply step_update; [done|].
  by apply rules_valid_product.
Qed.

Lemma patch_step q t :
  step t (table_of (run (guarded [Router.id_rule] Handlers.updateAvailability) q t)).
Proof.
  destruct (gate_closed_or_open [Router.id_rule] Handlers.updateAvailability q t)
    as [->|(_ & _ & ->)]; [constructor|].
  unfold Handlers.updateAvailability.
  destruct (Handlers.findByPk q t) as [[i p0]|] eqn:E; simpl; [|constructor].
  apply findByPk_Some in E. by eapply step_toggle.
Qed.

Lemma delete_step q t :
  step t (table_of (run (guarded [Router.id_rule] Handlers.deleteProduct) q t)).
Proof.
  destruct (gate_closed_or_open [Router.id_rule] Handlers.deleteProduct q t)
    as [->|(_ & _ & ->)]; [constructor|].
  unfold Handlers.deleteProduct.
  destruct (Handlers.findByPk q t) as [[i p0]|] eqn:E; simpl; constructor.
Qed.

Lemma get_step q t :
  table_of (run (guarded [Router.id_rule] Handlers.getProductById) q t) = t.
Proof.
  destruct (gate_closed_or_open [Router.id_rule] Handlers.getProductById q t)
    as [->|(_ & _ & ->)]; [done|].
  unfold Handlers.getProductById.
  by destruct (Handlers.findByPk q t) as [[i p0]|].
Qed.

(** A request whose name is not an array moves the table by one of the
    steps. *)
Lemma router_step req t :
  is_array (Handlers.body_field req "name") = false ->
  step t (table_of (Router.router req t)).
Proof.
  intros Ha. destruct (routed req) eqn:Hrouted;
    [|rewrite router_passes_unrouted by done; constructor].
  revert Hrouted. unfold routed, key_path.
  destruct (method req) eqn:Hm, (root_path (path req)) eqn:Hr,
    (path_key (path req)) as [s|] eqn:Hk; simpl; try done; intros _;
    try (apply root_not_key in Hr; congruence).
  - rewrite router_list by (by rewrite ?Hm). constructor.
  - rewrite (router_get req t s) by (by rewrite ?Hm). rewrite get_step. constructor.
  - rewrite router_list by (by rewrite ?Hm). constructor.
  - rewrite (router_get req t s) by (by rewrite ?Hm). rewrite get_step. constructor.
  - rewrite router_create by done. by apply create_step.
  - rewrite (router_update req t s) by done. by apply update_step.
  - rewrite (router_patch req t s) by done. apply patch_step.
  - rewrite (router_delete req t s) by done. apply delete_step.
Qed.

(** ** The invariant of the table *)

Lemma table_valid_empty : table_valid Store.empty.
Proof. intros i p H. simpl in H. by rewrite lookup_empty in H. Qed.

Lemma toggle_valid p : valid_product p -> valid_product (Handlers.toggle p).
Proof. by intros [??]. Qed.

Lemma step_valid t t' : step t t' -> table_valid t -> table_valid t'.
Proof.
  intros Hstep Hv. inversion Hstep as [|p Hp|i p0 p Hi Hp|i p Hi|i]; subst; try done;
    intros j q; simpl.
  - rewrite lookup_insert. case_decide; [intros; by simplify_eq|apply Hv].
  - rewrite lookup_insert. case_decide; [intros; by simplify_eq|apply Hv].
  - rewrite lookup_insert. case_decide; [|apply Hv].
    intros; simplify_eq. apply toggle_valid. by eapply Hv.
  - rewrite lookup_delete. case_decide; [done|apply Hv].
Qed.

Lemma step_wf t t' : step t t' -> table_wf t -> table_wf t'.
Proof.
  intros Hstep Hwf. inversion Hstep as [|p Hp|i p0 p Hi Hp|i p Hi|i]; subst; try done;
    intros j; simpl.
  - rewrite lookup_insert. case_decide; [lia|]. intros Hj%Hwf. lia.
  - rewrite lookup_insert. case_decide; [|apply Hwf]. subst. intros _. apply Hwf. eauto.
  - rewrite lookup_insert. case_decide; [|apply Hwf]. subst. intros _. apply Hwf. eauto.
  - rewrite lookup_delete. case_decide; [by intros [??]|apply Hwf].
Qed.

Lemma after_snoc reqs req t :
  after (reqs ++ [req]) t = table_of (Router.router req (after reqs t)).
Proof. unfold after. by rewrite foldl_app. Qed.

(** Requests whose name is not an array keep every stored product valid
    and the key sequence ahead of the keys in use. What becomes of a name
    sent as an array is left to the handler and the table behind it. *)
Lemma plain_names_keep_valid reqs t :
  Forall (fun req => is_array (Handlers.body_field req "name") = false) reqs ->
  table_valid t /\ table_wf t ->
  table_valid (after reqs t) /\ table_wf (after reqs t).
Proof.
  intros Hreqs Ht. induction reqs as [|req reqs IH] using rev_ind; [done|].
  apply Forall_app in Hreqs as [Hreqs Hreq%Forall_inv].
  destruct (IH Hreqs) as [Hv Hwf]. rewrite after_snoc. split.
  - eapply step_valid; [by apply router_step|done].
  - eapply step_wf; [by apply router_step|done].
Qed.

(** ** Routes with a key *)

Lemma findByPk_id q t s i :
  params q = id_param s -> Handlers.int_of_string s = Some i ->
  Handlers.findByPk q t = (fun p => (i, p)) <$> rows t !! i.
Proof.
  intros Hq Hs. unfold Handlers.findByPk. rewrite Hq. unfold id_param.
  rewrite lookup_singleton_eq. simpl. rewrite Hs. simpl.
  by destruct (rows t !! i).
Qed.

(** A fresh request with a well-formed key passes the gate of a route that
    only checks the key. *)
Lemma id_route_open h req t s :
  fresh req -> validator.isInt s = true ->
  run (guarded [Router.id_rule] h) (set_params req (id_param s)) t
  = h (set_params req (id_param s)) t.
Proof.
  intros Hfresh Hs. apply gate_open; [exact Hfresh|].
  unfold rule_failures. simpl flat_map.
  rewrite (id_rule_errors _ s) by done. by rewrite Hs.
Qed.

Lemma toggle_toggle p : Handlers.toggle (Handlers.toggle p) = p.
Proof. destruct p as [n pr a]. unfold Handlers.toggle. simpl. by rewrite negb_involutive. Qed.

Lemma patch_existing req t s i p :
  method req = PATCH -> path_key (path req) = Some s -> fresh req ->
  denotes s i -> rows t !! i = Some p ->
  Router.router req t
  = Respond {| status := 200; payload := OneProduct i (Handlers.toggle p) |}
            (with_rows t (<[i := Handlers.toggle p]> (rows t))).
Proof.
  intros Hm Hp Hfresh [Hint Hkey]%denotes_key Hi.
  rewrite (router_patch req t s) by done.
  rewrite (id_route_open _ _ _ s) by done.
  unfold Handlers.updateAvailability.
  rewrite (findByPk_id _ _ s i) by done. by rewrite Hi.
Qed.

(** C4. A PATCH whose key is a numeral of the key of a stored product is
    answered 200 with that product and the negation of its stored
    availability, and the table holds it afterwards, its name and price
    and every other row being as they were; a second PATCH on the same key
    brings the table back to what it was, so the availability is the
    original one again. *)
Theorem patch_toggles_availability (req : Request) (t : Table) (s : string) (i : Z)
    (p : Product) :
  method req = PATCH -> path req = [s] -> fresh req ->
  denotes s i -> rows t !! i = Some p ->
  let t1 := table_of (Router.router req t) in
  let t2 := table_of (Router.router req t1) in
  Router.router req t
  = Respond {| status := 200; payload := OneProduct i (Handlers.toggle p) |} t1
  /\ rows t1 !! i = Some (Handlers.toggle p)
  /\ availability (Handlers.toggle p) = negb (availability p)
  /\ name (Handlers.toggle p) = name p
  /\ price (Handlers.toggle p) = price p
  /\ (forall j, j <> i -> rows t1 !! j = rows t !! j)
  /\ t2 = t.
Proof.
  intros Hm Hp Hfresh Hs Hi t1 t2.
  assert (path_key (path req) = Some s) as Hk.
  { rewrite Hp. apply path_key_one. by eapply denotes_nonempty. }
  assert (t1 = with_rows t (<[i := Handlers.toggle p]> (rows t))) as Ht1.
  { subst t1. rewrite (patch_existing req t s i p) by done. done. }
  assert (rows t1 !! i = Some (Handlers.toggle p)) as Hi1.
  { rewrite Ht1. simpl. apply lookup_insert_eq. }
  split_and!; try done.
  - rewrite (patch_existing req t s i p) by done. by rewrite Ht1.
  - intros j Hj. rewrite Ht1. simpl. apply lookup_insert_ne. congruence.
  - subst t2. rewrite (patch_existing req t1 s i (Handlers.toggle p)) by done.
    simpl. rewrite Ht1. simpl. rewrite toggle_toggle, insert_insert_eq.
    rewrite (insert_id (rows t) i p) by done. by destruct t.
Qed.

Lemma patch_toggles_availability_witness :
  method (Samples.request PATCH ["012"] ∅) = PATCH
  /\ path (Samples.request PATCH ["012"] ∅) = ["012"]
  /\ fresh (Samples.request PATCH ["012"] ∅)
  /\ denotes "012" 12
  /\ rows Samples.three_products !! 12 = Some Samples.a_mouse
  /\ Router.router (Samples.request PATCH ["012"] ∅) Samples.three_products
     = Respond {| status := 200;
                  payload := OneProduct 12 (Handlers.toggle Samples.a_mouse) |}
               (table_of (Router.router (Samples.request PATCH ["012"] ∅)
                            Samples.three_products))
  /\ rows (table_of (Router.router (Samples.request PATCH ["012"] ∅)
                       Samples.three_products))
       !! 1 = Some Samples.a_monitor
  /\ table_of (Router.router (Samples.request PATCH ["012"] ∅)
                 (table_of (Router.router (Samples.request PATCH ["012"] ∅)
                              Samples.three_products)))
     = Samples.three_products.
Proof.
  assert (denotes "012" 12) as Hd by (apply (denotes_plain 1 12); lia).
  split; [reflexivity|]. split; [reflexivity|]. split; [reflexivity|].
  split; [exact Hd|]. split; [vm_compute; reflexivity|].
  pose proof (patch_toggles_availability (Samples.request PATCH ["012"] ∅)
                Samples.three_products "012" 12 Samples.a_mouse
                eq_refl eq_refl eq_refl Hd eq_refl) as (H1 & _ & _ & _ & _ & H6 & H7).
  split; [exact H1|]. split; [|exact H7].
  rewrite H6 by lia. vm_compute. reflexivity.
Defined.

(** ** Listing *)

(** Keys in ascending order without repetition are in strictly ascending
    order. *)
Lemma ascending_strict (l : list Z) :
  StronglySorted Z.le l -> NoDup l -> StronglySorted Z.lt l.
Proof.
  induction 1 as [|x l Hs IH Hall]; intros Hnd; [constructor|].
  apply NoDup_cons in Hnd as [Hx Hnd]. constructor; [by apply IH|].
  rewrite Forall_forall in Hall |- *. intros y Hy.
  assert (x <> y) by (intros ->; done). specialize (Hall y Hy). lia.
Qed.

(** C6. A GET on the root of the router is answered 200 with an array that
    holds exactly the stored products, each once, with their keys in
    strictly ascending order; the table is not changed. *)
Theorem list_all_sorted (req : Request) (t : Table) :
  method req = GET -> path req = [] ->
  exists ps,
    Router.router req t = Respond {| status := 200; payload := Products ps |} t
    /\ (forall i p, (i, p) ∈ ps <-> rows t !! i = Some p)
    /\ NoDup ps.*1
    /\ StronglySorted Z.lt ps.*1.
Proof.
  intros Hm Hp. rewrite router_list by (by rewrite ?Hm, ?Hp).
  unfold Handlers.getProducts. eexists. split; [reflexivity|]. simpl.
  assert (NoDup (merge_sort Handlers.by_id (map_to_list (rows t))).*1) as Hnd.
  { rewrite merge_sort_Permutation. apply NoDup_fst_map_to_list. }
  split_and!; [|done|].
  - intros i p. rewrite merge_sort_Permutation. apply elem_of_map_to_list.
  - apply ascending_strict; [|done].
    apply (StronglySorted_fmap fst Handlers.by_id Z.le); [by intros ??|].
    apply StronglySorted_merge_sort; apply _.
Qed.

Lemma list_all_sorted_witness :
  method (Samples.request GET [] ∅) = GET
  /\ path (Samples.request GET [] ∅) = []
  /\ exists ps,
       Router.router (Samples.request GET [] ∅) Samples.three_products
       = Respond {| status := 200; payload := Products ps |} Samples.three_products
       /\ ps = [(1, Samples.a_monitor); (3, Samples.a_keyboard); (12, Samples.a_mouse)]
       /\ StronglySorted Z.lt ps.*1.
Proof.
  split; [reflexivity|]. split; [reflexivity|].
  destruct (list_all_sorted (Samples.request GET [] ∅) Samples.three_products
              eq_refl eq_refl) as (ps & Heq & _ & _ & Hsorted).
  exists ps. split; [exact Heq|]. split; [|exact Hsorted].
  vm_compute in Heq. by injection Heq as <-.
Defined.

(** ** Updating *)



(** ** The CORS allow-list *)

Lemma whitelist_members fe (o : string) :
  Some o ∈ Server.whitelist fe <-> fe = Some o \/ o = "http://localhost:5173".
Proof.
  unfold Server.whitelist. rewrite !elem_of_cons, elem_of_nil.
  split.
  - intros [->|[H|[]]]; [by left|right; by simplify_eq].
  - intros [->| ->]; auto.
Qed.

Lemma origin_decision fe (o : string) :
  o <> "" ->
  Server.corsOptions_origin fe (Some o)
  = if bool_decide (Some o ∈ Server.whitelist fe) then Server.Allow
    else Server.Deny "Error de cors".
Proof.
  intros Ho. unfold Server.corsOptions_origin, Server.includes. simpl.
  destruct o; [done|]. done.
Qed.

(** C8. For a request that carries an origin (a cross-origin request, whose
    Origin header is never empty): the origin check allows it exactly when
    the origin is on the allow-list, that is, when it is the configured
    FRONTEND_URL or http://localhost:5173; when it is not, the server
    answers with its error response whatever is mounted behind the check
    and leaves the table as it was, so no route is reached. *)
Theorem cors_allow_list (FRONTEND_URL : option string) (products docs : Express.Middleware)
    (req : Request) (t : Table) (o : string) :
  origin req = Some o -> o <> "" ->
  (Server.corsOptions_origin FRONTEND_URL (origin req) = Server.Allow
   <-> Some o ∈ Server.whitelist FRONTEND_URL)
  /\ (Some o ∈ Server.whitelist FRONTEND_URL
      <-> FRONTEND_URL = Some o \/ o = "http://localhost:5173")
  /\ (Some o ∉ Server.whitelist FRONTEND_URL ->
      Server.application FRONTEND_URL products docs req t
      = ({| status := 500; payload := ServerError "Error de cors" |}, t)).
Proof.
  intros Horigin Ho. rewrite Horigin, origin_decision by done.
  split_and!.
  - case_bool_decide; split; done.
  - apply whitelist_members.
  - intros Hout. unfold Server.application, Server.stack. simpl.
    unfold Server.cors. rewrite Horigin, origin_decision by done.
    by rewrite bool_decide_eq_false_2.
Qed.

Lemma cors_allow_list_witness :
  origin (Samples.from_origin (Some "http://evil.example")
            (Samples.request POST ["api"; "products"] Samples.monitor))
  = Some "http://evil.example"
  /\ "http://evil.example" <> ""
  /\ Server.server (Some "https://tienda.example") Express.Next
       (Samples.from_origin (Some "http://evil.example")
          (Samples.request POST ["api"; "products"] Samples.monitor))
       Store.empty
     = ({| status := 500; payload := ServerError "Error de cors" |}, Store.empty).
Proof.
  split; [reflexivity|]. split; [discriminate|].
  apply (cors_allow_list (Some "https://tienda.example") Router.router Express.Next
           (Samples.from_origin (Some "http://evil.example")
              (Samples.request POST ["api"; "products"] Samples.monitor))
           Store.empty "http://evil.example"); [reflexivity|discriminate|].
  rewrite whitelist_members. intros [H|H]; discriminate.
Defined.

(** C10. A request without Origin header: the origin check calls back with
    success whatever the allow-list is, and the request goes on to the
    middleware behind the check, so the server answers what the routing
    answers. *)
Theorem no_origin_allowed (FRONTEND_URL : option string)
    (products docs : Express.Middleware) (req : Request) (t : Table) :
  origin req = None ->
  Server.corsOptions_origin FRONTEND_URL (origin req) = Server.Allow
  /\ Server.cors FRONTEND_URL req t = Next req t
  /\ Server.application FRONTEND_URL products docs req t
     = Server.finish (run (Server.routing products docs) req t).
Proof.
  intros Horigin.
  assert (Server.cors FRONTEND_URL req t = Next req t) as Hcors.
  { unfold Server.cors. by rewrite Horigin. }
  split; [by rewrite Horigin|]. split; [done|].
  unfold Server.application, Server.stack. cbn [run]. by rewrite Hcors.
Qed.

Lemma no_origin_allowed_witness :
  origin (Samples.request POST ["api"; "products"] Samples.monitor) = None
  /\ (None ∉ Server.whitelist (Some "https://tienda.example"))
  /\ Server.corsOptions_origin (Some "https://tienda.example")
       (origin (Samples.request POST ["api"; "products"] Samples.monitor))
     = Server.Allow
  /\ fst (Server.server (Some "https://tienda.example") Express.Next
            (Samples.request POST ["api"; "products"] Samples.monitor) Store.empty)
     = {| status := 201; payload := OneProduct 1 Samples.a_monitor |}.
Proof.
  split; [reflexivity|].
  split; [unfold Server.whitelist; rewrite !elem_of_cons, elem_of_nil;
          intros [H|[H|[]]]; discriminate|].
  pose proof (no_origin_allowed (Some "https://tienda.example") Router.router
                Express.Next
                (Samples.request POST ["api"; "products"] Samples.monitor)
                Store.empty eq_refl) as (H1 & _ & H3).
  split; [exact H1|].
  unfold Server.server. rewrite H3. vm_compute. reflexivity.
Defined.

(** ** Start-up *)

(** C9. When the database cannot be reached, [connectDB] ends normally
    after one call of [db.authenticate] (no second attempt), without
    calling [db.sync], with one line added to the console, and without
    ending the process. *)
Theorem connectDB_failure_logged (w : Server.World) :
  Server.db_reachable w = false ->
  Server.connectDB w
  = (Server.Ok tt,
     {| Server.db_reachable := false;
        Server.authenticate_calls := S (Server.authenticate_calls w);
        Server.sync_calls := Server.sync_calls w;
        Server.console :=
          Server.console w ++ [Server.red_bold "Hubo un error al conectar a la BD"];
        Server.exited := Server.exited w |}).
Proof.
  intros Hdown. unfold Server.connectDB, Server.try_catch, Server.bind,
    Server.db_authenticate. rewrite Hdown. reflexivity.
Qed.

Lemma connectDB_failure_logged_witness :
  Server.db_reachable Samples.database_down = false
  /\ Server.connectDB Samples.database_down
     = (Server.Ok tt,
        {| Server.db_reachable := false;
           Server.authenticate_calls := 1;
           Server.sync_calls := 0;
           Server.console := [Server.red_bold "Hubo un error al conectar a la BD"];
           Server.exited := false |}).
Proof.
  split; [reflexivity|].
  apply (connectDB_failure_logged Samples.database_down). reflexivity.
Defined.

(** * Further properties *)

(** ** Which requests the router answers *)

(** X1. For the verbs GET, HEAD, POST, PUT, PATCH and DELETE and a path
    without doubled slash: the router passes a request on, with the
    request and the table as they were, exactly when its verb and path are
    not those of one of its six routes (for instance POST with a key, PUT,
    PATCH or DELETE on the root, or a path of two segments that are not
    empty); otherwise it answers. A slash at the end of the path makes no
    difference, and HEAD is routed as GET is. *)
Theorem router_passes_iff_unrouted (req : Request) (t : Table) :
  no_doubled_slash (path req) = true ->
  Router.router req t = Next req t <-> routed req = false.
Proof.
  intros _. split.
  - intros H. destruct (routed req) eqn:Hr; [|done].
    destruct (router_responds_routed req t Hr) as (res & t' & Hres). congruence.
  - apply router_passes_unrouted.
Qed.

Lemma router_passes_iff_unrouted_witness :
  no_doubled_slash (path (Samples.request POST ["5"; ""] Samples.monitor)) = true
  /\ routed (Samples.request POST ["5"; ""] Samples.monitor) = false
  /\ Router.router (Samples.request POST ["5"; ""] Samples.monitor) Samples.one_product
     = Next (Samples.request POST ["5"; ""] Samples.monitor) Samples.one_product.
Proof.
  split; [reflexivity|]. split; [reflexivity|].
  apply (router_passes_iff_unrouted (Samples.request POST ["5"; ""] Samples.monitor)
           Samples.one_product); reflexivity.
Defined.

(** ** Keys that are not integers *)

Lemma id_failure_first rules req s :
  params req = id_param s -> validator.isInt s = false ->
  rule_failures (Router.id_rule :: rules) req = id_error :: rule_failures rules req.
Proof.
  intros Hp Hs. unfold rule_failures. simpl flat_map.
  by rewrite (id_rule_errors req s Hp), Hs.
Qed.

Lemma guarded_bad_id rules h req t s :
  fresh req -> validator.isInt s = false ->
  run (guarded (Router.id_rule :: rules) h) (set_params req (id_param s)) t
  = Respond {| status := 400;
               payload := Errors (id_error
                                  :: rule_failures rules (set_params req (id_param s))) |}
            t.
Proof.
  intros Hfresh Hs. rewrite run_guarded. simpl validation_errors.
  unfold fresh in Hfresh. rewrite Hfresh, app_nil_l.
  by rewrite (id_failure_first rules _ s).
Qed.

(** X2. On the routes with a key (GET, PUT, PATCH, DELETE on ['/:id'],
    and HEAD through GET), a key without percent sign that is not a sign
    followed by digits is answered 400 and the table is left as it was;
    the first failure names the field [id] with the message of the rule,
    and on every verb but PUT it is the only one. *)
Theorem bad_id_rejected (req : Request) (t : Table) (s : string) :
  id_route req s -> fresh req -> no_percent s = true ->
  validator.isInt s = false ->
  exists errs,
    Router.router req t
    = Respond {| status := 400; payload := Errors (id_error :: errs) |} t
    /\ (method req <> PUT -> errs = []).
Proof.
  intros (Hp & Hm) Hfresh _ Hint.
  destruct (method req) eqn:Hmethod; [| | done | | |].
  - rewrite (router_get req t s) by (by rewrite ?Hmethod).
    rewrite (guarded_bad_id [] _ req t s) by done. eauto.
  - rewrite (router_get req t s) by (by rewrite ?Hmethod).
    rewrite (guarded_bad_id [] _ req t s) by done. eauto.
  - rewrite (router_update req t s) by done.
    rewrite (guarded_bad_id
               [Router.name_rule; Router.price_rule; Router.availability_rule]
               _ req t s) by done.
    eexists. split; [reflexivity|done].
  - rewrite (router_patch req t s) by done.
    rewrite (guarded_bad_id [] _ req t s) by done. eauto.
  - rewrite (router_delete req t s) by done.
    rewrite (guarded_bad_id [] _ req t s) by done. eauto.
Qed.

Lemma bad_id_rejected_witness :
  id_route (Samples.request DELETE ["1.5"; ""] ∅) "1.5"
  /\ fresh (Samples.request DELETE ["1.5"; ""] ∅)
  /\ no_percent "1.5" = true
  /\ validator.isInt "1.5" = false
  /\ exists errs,
       Router.router (Samples.request DELETE ["1.5"; ""] ∅) Samples.one_product
       = Respond {| status := 400; payload := Errors (id_error :: errs) |}
                 Samples.one_product
       /\ (method (Samples.request DELETE ["1.5"; ""] ∅) <> PUT -> errs = []).
Proof.
  assert (id_route (Samples.request DELETE ["1.5"; ""] ∅) "1.5") as Hroute.
  { split; [reflexivity|discriminate]. }
  split; [exact Hroute|]. split; [reflexivity|]. split; [reflexivity|].
  split; [reflexivity|].
  apply (bad_id_rejected (Samples.request DELETE ["1.5"; ""] ∅) Samples.one_product
           "1.5");
    [exact Hroute | reflexivity | reflexivity | reflexivity].
Defined.

(** ** The mounts of the server *)

Lemma finish_next req req' t : Server.finish (Next req t) = Server.finish (Next req' t).
Proof. reflexivity. Qed.

Lemma use_at_hit prefix m req t rest :
  Server.strip_prefix prefix (path req) = Some rest ->
  Server.use_at prefix m req t
  = match m (set_path req rest) t with
    | Next _ t' => Next req t'
    | out => out
    end.
Proof. intros H. unfold Server.use_at. by rewrite H. Qed.

Lemma use_at_miss prefix m req t :
  Server.strip_prefix prefix (path req) = None ->
  Server.use_at prefix m req t = Next req t.
Proof. intros H. unfold Server.use_at. by rewrite H. Qed.

Lemma allowed_runs_routing fe products docs req t :
  Server.corsOptions_origin fe (origin req) = Server.Allow ->
  Server.application fe products docs req t
  = Server.finish (run (Server.routing products docs) req t).
Proof.
  intros Hallow. unfold Server.application, Server.stack. cbn [run].
  unfold Server.cors. by rewrite Hallow.
Qed.

(** X3. Once the origin check allows a request, a path below
    [/api/products] gets the answer of the middleware mounted there on the
    path with the prefix taken off, and a path below [/docs] the answer of
    the one mounted there; neither mount sees the requests of the other. *)
Theorem mounts_are_separate (FRONTEND_URL : option string)
    (products docs : Express.Middleware) (req : Request) (t : Table)
    (rest : list string) :
  Server.corsOptions_origin FRONTEND_URL (origin req) = Server.Allow ->
  (path req = "api" :: "products" :: rest ->
   Server.application FRONTEND_URL products docs req t
   = Server.finish (products (set_path req rest) t))
  /\ (path req = "docs" :: rest ->
      Server.application FRONTEND_URL products docs req t
      = Server.finish (docs (set_path req rest) t)).
Proof.
  intros Hallow. rewrite allowed_runs_routing by done.
  unfold Server.routing, Server.express_json, Server.morgan. cbn [run].
  split; intros Hp.
  - rewrite (use_at_hit _ _ _ _ rest) by (rewrite Hp; reflexivity).
    destruct (products (set_path req rest) t); try done.
    rewrite use_at_miss by (rewrite Hp; reflexivity). done.
  - rewrite use_at_miss by (rewrite Hp; reflexivity).
    rewrite (use_at_hit _ _ _ _ rest) by (rewrite Hp; reflexivity).
    destruct (docs (set_path req rest) t); done.
Qed.

Lemma mounts_are_separate_witness :
  Server.corsOptions_origin (Some "https://tienda.example")
    (origin (Samples.request GET ["api"; "products"; "1"] ∅)) = Server.Allow
  /\ Server.server (Some "https://tienda.example")
       (fun req t => Respond {| status := 200; payload := Message "docs" |} t)
       (Samples.request GET ["api"; "products"; "1"] ∅) Samples.one_product
     = Server.finish
         (Router.router (set_path (Samples.request GET ["api"; "products"; "1"] ∅) ["1"])
            Samples.one_product).
Proof.
  split; [reflexivity|].
  apply (mounts_are_separate (Some "https://tienda.example") Router.router
           (fun req t => Respond {| status := 200; payload := Message "docs" |} t)
           (Samples.request GET ["api"; "products"; "1"] ∅) Samples.one_product ["1"]);
    reflexivity.
Defined.

(** The mounts are found whatever the case of the letters of the path. *)
Example strip_prefix_case :
  Server.strip_prefix ["api"; "products"] ["API"; "Products"; "1"] = Some ["1"]
  /\ Server.strip_prefix ["docs"] ["Docs"] = Some []
  /\ Server.strip_prefix ["api"; "products"] ["api"; "product"] = None.
Proof. done. Qed.

(** X4. Once the origin check allows a request, a path that is below
    neither [/api/products] nor [/docs], whatever the case of its letters,
    is answered 404 with the table as it was, whatever is mounted at the
    two prefixes. *)
Theorem unmounted_not_found (FRONTEND_URL : option string)
    (products docs : Express.Middleware) (req : Request) (t : Table) :
  Server.corsOptions_origin FRONTEND_URL (origin req) = Server.Allow ->
  Server.strip_prefix ["api"; "products"] (path req) = None ->
  Server.strip_prefix ["docs"] (path req) = None ->
  Server.application FRONTEND_URL products docs req t
  = ({| status := 404; payload := NotFound |}, t).
Proof.
  intros Hallow Hp Hd. rewrite allowed_runs_routing by done.
  unfold Server.routing, Server.express_json, Server.morgan. cbn [run].
  by rewrite !use_at_miss.
Qed.

Lemma unmounted_not_found_witness :
  Server.corsOptions_origin None (origin (Samples.request GET ["api"; "users"] ∅))
  = Server.Allow
  /\ Server.strip_prefix ["api"; "products"] (path (Samples.request GET ["api"; "users"] ∅))
     = None
  /\ Server.strip_prefix ["docs"] (path (Samples.request GET ["api"; "users"] ∅)) = None
  /\ Server.server None Express.Next (Samples.request GET ["api"; "users"] ∅)
       Samples.one_product
     = ({| status := 404; payload := NotFound |}, Samples.one_product).
Proof.
  split; [reflexivity|]. split; [reflexivity|]. split; [reflexivity|].
  apply (unmounted_not_found None Router.router Express.Next
           (Samples.request GET ["api"; "users"] ∅) Samples.one_product); reflexivity.
Defined.

(** ** The origin check on every header *)

(** X5. The origin check allows a request exactly when it has no Origin
    header, or an empty one, or one equal to the configured FRONTEND_URL or
    to the development origin. In particular an empty Origin value is
    allowed whatever the allow-list is, and with FRONTEND_URL unset the
    development origin is the only non-empty origin that is allowed. *)
Theorem origin_check_decides (FRONTEND_URL origin : option string) :
  Server.corsOptions_origin FRONTEND_URL origin = Server.Allow
  <-> origin = None \/ origin = Some "" \/ origin = FRONTEND_URL
      \/ origin = Some "http://localhost:5173".
Proof.
  unfold Server.corsOptions_origin, Server.includes, Server.whitelist.
  destruct (Server.is_falsy origin) eqn:Hf; simpl.
  - split; [intros _|done].
    destruct origin as [[|c s]|]; simpl in Hf; try done; auto.
  - case_bool_decide as Hin.
    + split; [intros _|done].
      rewrite !elem_of_cons, elem_of_nil in Hin.
      destruct Hin as [->|[->|[]]]; auto.
    + split; [done|]. intros H. exfalso. apply Hin.
      rewrite !elem_of_cons, elem_of_nil.
      destruct H as [->|[->|[->| ->]]]; try done; auto.
Qed.

(** ** Start-up on every database *)

(** X6. Whether the database can be reached or not, [connectDB] ends
    normally (it never throws), calls [db.authenticate] exactly once and
    leaves the process running; it calls [db.sync] once and writes nothing
    when the database is reachable, and writes one line without calling
    [db.sync] when it is not. What the call of [db.sync], which is not
    awaited, does later is not part of the model. *)
Theorem connectDB_total (w : Server.World) :
  exists w',
    Server.connectDB w = (Server.Ok tt, w')
    /\ Server.authenticate_calls w' = S (Server.authenticate_calls w)
    /\ Server.exited w' = Server.exited w
    /\ Server.db_reachable w' = Server.db_reachable w
    /\ (if Server.db_reachable w
        then Server.sync_calls w' = S (Server.sync_calls w)
             /\ Server.console w' = Server.console w
        else Server.sync_calls w' = Server.sync_calls w
             /\ Server.console w'
                = (Server.console w
                   ++ [Server.red_bold "Hubo un error al conectar a la BD"])%list).
Proof.
  unfold Server.connectDB, Server.try_catch, Server.bind, Server.db_authenticate,
    Server.db_sync, Server.console_log.
  destruct (Server.db_reachable w) eqn:Hdb; eexists; (split; [reflexivity|]); simpl;
    rewrite ?Hdb; done.
Qed.

(** ** Prices sent as numbers *)

(** X7. A price sent as a JSON number passes the price rule exactly when it
    is at least one millionth and below ten to the 21st: the numbers that
    JavaScript prints without exponent. Smaller and larger positive
    numbers fail it, like zero and the negative ones. The number is the
    value that the body holds once parsed. *)
Theorem price_number_range (req : Request) (m e : Z) :
  Handlers.body_field req "price" = JS.VNum (JS.Fin m e) ->
  chain_errors Router.price_rule req = []
  <-> JS.number_lt (JS.Fin m e) one_millionth = false
      /\ JS.number_lt (JS.Fin m e) ten_to_21 = true.
Proof.
  intros Hp. rewrite price_rule_passes, Hp. unfold plain_numeral, JS.gt.
  rewrite standard_ok_scalar, toString_number by done.
  change (JS.ToNumber (JS.VNum (JS.Fin m e))) with (JS.Fin m e).
  destruct (Z_lt_le_dec 0 m) as [Hm|Hm].
  - rewrite NumberToString_positive, positive_to_string_numeric by done.
    unfold one_millionth, ten_to_21.
    rewrite andb_true_iff, Z.ltb_lt, Z.leb_le, <- (below_power m e 21) by done.
    rewrite (proj2 (above_zero m e) Hm).
    assert (JS.number_lt (JS.Fin m e) (JS.Fin 1 (-6)) = false
            <-> -6 < point_position m e) as ->.
    { rewrite <- not_true_iff_false, (below_power m e (-6)) by done. lia. }
    tauto.
  - split.
    + intros [_ H]. apply above_zero in H. lia.
    + intros [H _]. exfalso. revert H. unfold JS.number_lt, one_millionth.
      rewrite Z.ltb_ge, Z.mul_1_l.
      pose proof (pow10_pos (e - Z.min e (-6))).
      pose proof (pow10_pos (-6 - Z.min e (-6))). nia.
Qed.

Lemma price_number_range_witness :
  Handlers.body_field (Samples.request POST [] Samples.monitor) "price"
  = JS.VNum (JS.Fin 300 0)
  /\ JS.number_lt (JS.Fin 300 0) one_millionth = false
  /\ JS.number_lt (JS.Fin 300 0) ten_to_21 = true
  /\ chain_errors Router.price_rule (Samples.request POST [] Samples.monitor) = [].
Proof.
  split; [reflexivity|]. split; [reflexivity|]. split; [reflexivity|].
  apply (price_number_range (Samples.request POST [] Samples.monitor) 300 0);
    [reflexivity|]. split; reflexivity.
Defined.

(** ** Prices sent as text *)

(** X8. A price sent as text of at most 300 characters passes the price
    rule exactly when the text is a plain decimal numeral (an optional
    sign, digits, an optional point followed by digits; no exponent, no
    white space) that has no minus sign and at least one digit other than
    0. The bound keeps the value of the text within the range of the
    doubles: a longer numeral, with hundreds of zeros behind its point,
    can be so small that it is the number zero. *)
Theorem price_text_accepted (req : Request) (s : string) :
  Handlers.body_field req "price" = JS.VStr s ->
  (String.length s <= 300)%nat ->
  chain_errors Router.price_rule req = []
  <-> validator.isNumeric s = true
      /\ starts_with_minus s = false
      /\ some_nonzero_digit s = true.
Proof.
  intros Hp Hlen. rewrite price_rule_passes, Hp. unfold plain_numeral, JS.gt.
  rewrite standard_ok_scalar, toString_VStr by done.
  change (JS.ToNumber (JS.VStr s)) with (JS.StringToNumber s).
  split.
  - intros [Hnum Hgt]. split; [done|].
    destruct (StringToNumber_numeral s Hnum) as (ds & ex & Hval & Hds & Hsome & Hex).
    rewrite Hval in Hgt. apply above_zero_double in Hgt; [|lia].
    pose proof (digits_value_bound ds Hds) as [Hge _].
    destruct (starts_with_minus s); simpl in Hgt; [lia|]. split; [done|].
    rewrite Hsome. by apply digits_value_pos.
  - intros (Hnum & Hminus & Hsome). split; [done|].
    destruct (StringToNumber_numeral s Hnum) as (ds & ex & Hval & Hds & Hsome' & Hex).
    rewrite Hval, Hminus. apply above_zero_double; [lia|]. simpl.
    apply digits_value_pos; [done|]. by rewrite <- Hsome'.
Qed.

Lemma price_text_accepted_witness :
  Handlers.body_field
    (Samples.request POST [] {[ "name" := JS.VStr "Monitor"; "price" := JS.VStr "+0.50" ]})
    "price" = JS.VStr "+0.50"
  /\ (String.length "+0.50" <= 300)%nat
  /\ validator.isNumeric "+0.50" = true
  /\ starts_with_minus "+0.50" = false
  /\ some_nonzero_digit "+0.50" = true
  /\ chain_errors Router.price_rule
       (Samples.request POST []
          {[ "name" := JS.VStr "Monitor"; "price" := JS.VStr "+0.50" ]}) = [].
Proof.
  split; [vm_compute; reflexivity|]. split; [simpl; lia|].
  split; [reflexivity|]. split; [reflexivity|]. split; [reflexivity|].
  apply (price_text_accepted
           (Samples.request POST []
              {[ "name" := JS.VStr "Monitor"; "price" := JS.VStr "+0.50" ]}) "+0.50");
    [vm_compute; reflexivity|simpl; lia|]. split_and!; reflexivity.
Defined.


(** A numeral too small for a double is zero, and the price rule rejects
    it. *)
Example price_text_underflow :
  chain_errors Router.price_rule
    (Samples.request POST []
       {[ "price" := JS.VStr ("0." ++ JS.zeros 330 ++ "1") ]})
  = [price_error_numeric].
Proof. vm_compute. reflexivity. Qed.

(** ** Values whose text form is empty *)

(** X9. For a name that is not an array, the name rule fails exactly when
    the name is absent, null, the empty text or NaN; every other such
    value passes it, text made of white space, numbers and booleans
    included. *)
Theorem name_rule_rejects (req : Request) :
  is_array (Handlers.body_field req "name") = false ->
  chain_errors Router.name_rule req = [name_error]
  <-> Handlers.body_field req "name" = JS.VUndefined
      \/ Handlers.body_field req "name" = JS.VNull
      \/ Handlers.body_field req "name" = JS.VStr ""
      \/ Handlers.body_field req "name" = JS.VNum JS.NaN.
Proof.
  intros Ha. rewrite name_rule_errors, <- toString_empty, <- isEmpty_true by done.
  unfold empty_name. by destruct (validator.isEmpty _).
Qed.

Lemma name_rule_rejects_witness :
  is_array (Handlers.body_field (Samples.request POST [] Samples.nameless_free) "name")
  = false
  /\ chain_errors Router.name_rule (Samples.request POST [] Samples.nameless_free)
     = [name_error].
Proof.
  split; [reflexivity|].
  apply (name_rule_rejects (Samples.request POST [] Samples.nameless_free));
    [reflexivity|]. right. right. left. reflexivity.
Defined.

(** An array is checked element by element: the empty array passes the
    name rule, an array that holds an empty text fails it. *)
Example name_rule_arrays :
  chain_errors Router.name_rule
    (Samples.request POST [] {[ "name" := JS.VArr [] ]}) = []
  /\ chain_errors Router.name_rule
       (Samples.request POST [] {[ "name" := JS.VArr [JS.VStr "a"; JS.VStr ""] ]})
     = [name_error].
Proof. split; vm_compute; reflexivity. Qed.

(** X10. For a price that is not an array, the price rule reports that the
    price is empty exactly when the price is absent, null, the empty text
    or NaN, and then it reports both other failures as well: the three
    failures come together. *)
Theorem price_empty_failure (req : Request) :
  is_array (Handlers.body_field req "price") = false ->
  (price_error_empty ∈ chain_errors Router.price_rule req
   <-> Handlers.body_field req "price" = JS.VUndefined
       \/ Handlers.body_field req "price" = JS.VNull
       \/ Handlers.body_field req "price" = JS.VStr ""
       \/ Handlers.body_field req "price" = JS.VNum JS.NaN)
  /\ (price_error_empty ∈ chain_errors Router.price_rule req ->
      chain_errors Router.price_rule req = price_errors_all).
Proof.
  intros Ha.
  assert (price_error_empty ∈ chain_errors Router.price_rule req
          <-> toString (Handlers.body_field req "price") = "") as Hiff.
  { rewrite price_rule_errors, <- isEmpty_true by done. simpl.
    destruct (validator.isEmpty _).
    - split; [done|intros _].
      destruct (validator.isNumeric _), (JS.gt _ _); simpl; rewrite !elem_of_cons; auto.
    - split; [|done]. intros H. exfalso.
      destruct (validator.isNumeric _), (JS.gt _ _); simpl in H;
        repeat (apply elem_of_cons in H as [H|H]; [discriminate H|]);
        by apply elem_of_nil in H. }
  split; [by rewrite Hiff, toString_empty|].
  rewrite Hiff, toString_empty by done.
  intros [H|[H|[H|H]]]; rewrite price_rule_errors by done; rewrite H; reflexivity.
Qed.

Lemma price_empty_failure_witness :
  is_array (Handlers.body_field (Samples.request POST [] ∅) "price") = false
  /\ price_error_empty ∈ chain_errors Router.price_rule (Samples.request POST [] ∅)
  /\ chain_errors Router.price_rule (Samples.request POST [] ∅) = price_errors_all.
Proof.
  pose proof (price_empty_failure (Samples.request POST [] ∅) eq_refl) as [H1 H2].
  assert (price_error_empty ∈ chain_errors Router.price_rule (Samples.request POST [] ∅))
    as Hin by (apply H1; by left).
  split; [reflexivity|]. split; [exact Hin|exact (H2 Hin)].
Defined.

(** ** Keys and their numerals *)

Lemma denotes_int_text i : denotes (int_text i) i.
Proof.
  unfold int_text. destruct (i <? 0) eqn:Hi.
  - apply Z.ltb_lt in Hi. replace i with (- - i) at 2 by lia.
    apply (denotes_minus 0 (- i)). lia.
  - apply Z.ltb_ge in Hi. by apply (denotes_plain 0 i).
Qed.

(** X11. The decimal text of every integer passes the predicate of the
    key rule and is read back as that integer, so every key can be
    addressed. More generally the predicate accepts exactly the numerals
    of integers, that is, an optional sign, any number of leading zeros
    and the digits of the absolute value, and the handlers read from a
    numeral the integer that it denotes: [007] and [+7] address the key
    7. *)
Theorem key_text_round_trip (i : Z) :
  validator.isInt (int_text i) = true
  /\ Handlers.int_of_string (int_text i) = Some i
  /\ (forall s, validator.isInt s = true <-> exists j, denotes s j)
  /\ (forall s j, denotes s j -> Handlers.int_of_string s = Some j).
Proof.
  pose proof (denotes_key _ _ (denotes_int_text i)) as [H1 H2].
  split_and!; [done|done| |].
  - intros s. split; [apply isInt_denotes|].
    intros [j Hj]. by apply denotes_key in Hj as [? _].
  - intros s j Hj. by apply denotes_key in Hj as [_ ?].
Qed.

Example keys_with_zeros :
  map Handlers.int_of_string ["007"; "+7"; "-0"; "00"; "7.0"; "0x7"; ""]
  = [Some 7; Some 7; Some 0; Some 0; None; None; None].
Proof. reflexivity. Qed.

(** ** The server on paths without a route *)

(** X12. For the verbs GET, HEAD, POST, PUT, PATCH and DELETE: once the
    origin check allows a request, a path below [/api/products], without
    doubled slash, whose verb and remaining path are not those of a route
    of the router (PUT, PATCH or DELETE without a key, POST with one, two
    segments that are not empty or more) is answered 404 with the table
    as it was. A slash at the end of the path makes no difference. *)
Theorem server_unrouted_not_found (FRONTEND_URL : option string)
    (docs : Express.Middleware) (req : Request) (t : Table) (rest : list string) :
  Server.corsOptions_origin FRONTEND_URL (origin req) = Server.Allow ->
  path req = "api" :: "products" :: rest ->
  no_doubled_slash rest = true ->
  routed (set_path req rest) = false ->
  Server.server FRONTEND_URL docs req t = ({| status := 404; payload := NotFound |}, t).
Proof.
  intros Hallow Hp _ Hr. unfold Server.server.
  rewrite allowed_runs_routing by done.
  unfold Server.routing, Server.express_json, Server.morgan. cbn [run].
  rewrite (use_at_hit _ _ _ _ rest) by (rewrite Hp; reflexivity).
  rewrite router_passes_unrouted by done.
  rewrite use_at_miss by (rewrite Hp; reflexivity). done.
Qed.

Lemma server_unrouted_not_found_witness :
  Server.corsOptions_origin None
    (origin (Samples.request DELETE ["api"; "products"] ∅)) = Server.Allow
  /\ path (Samples.request DELETE ["api"; "products"] ∅) = ["api"; "products"]
  /\ no_doubled_slash [] = true
  /\ routed (set_path (Samples.request DELETE ["api"; "products"] ∅) []) = false
  /\ Server.server None Express.Next (Samples.request DELETE ["api"; "products"] ∅)
       Samples.one_product
     = ({| status := 404; payload := NotFound |}, Samples.one_product).
Proof.
  split; [reflexivity|]. split; [reflexivity|]. split; [reflexivity|].
  split; [reflexivity|].
  apply (server_unrouted_not_found None Express.Next
           (Samples.request DELETE ["api"; "products"] ∅) Samples.one_product []);
    reflexivity.
Defined.


(** A slash at the end of the path and the case of the mount path make no
    difference, and HEAD goes where GET goes. *)
Example trailing_slash_routed :
  fst (Server.server None Express.Next
         (Samples.request GET ["api"; "products"; ""] ∅) Samples.one_product)
  = {| status := 200; payload := Products [(1, Samples.a_monitor)] |}
  /\ fst (Server.server None Express.Next
            (Samples.request HEAD ["API"; "Products"; "1"; ""] ∅) Samples.one_product)
     = {| status := 200; payload := OneProduct 1 Samples.a_monitor |}.
Proof. split; vm_compute; reflexivity. Qed.

(** ** Prices of other kinds *)

(** X14. Only a finite number, a text or an array can pass the price rule:
    an absent price, null, a boolean, an object, NaN and the infinities
    always fail it, although [true > 0] holds in JavaScript. *)
Theorem price_kind (req : Request) :
  chain_errors Router.price_rule req = [] ->
  (exists m e, Handlers.body_field req "price" = JS.VNum (JS.Fin m e))
  \/ (exists s, Handlers.body_field req "price" = JS.VStr s)
  \/ (exists l, Handlers.body_field req "price" = JS.VArr l).
Proof.
  rewrite price_rule_passes. unfold plain_numeral.
  destruct (Handlers.body_field req "price") as [| |[]|[|[]|m e]|s|l|]; eauto;
    intros [H _]; discriminate H.
Qed.

Lemma price_kind_witness :
  chain_errors Router.price_rule (Samples.request POST [] Samples.array_fields) = []
  /\ ((exists m e,
         Handlers.body_field (Samples.request POST [] Samples.array_fields) "price"
         = JS.VNum (JS.Fin m e))
      \/ (exists s,
            Handlers.body_field (Samples.request POST [] Samples.array_fields) "price"
            = JS.VStr s)
      \/ (exists l,
            Handlers.body_field (Samples.request POST [] Samples.array_fields) "price"
            = JS.VArr l)).
Proof.
  split; [vm_compute; reflexivity|].
  apply (price_kind (Samples.request POST [] Samples.array_fields)).
  vm_compute. reflexivity.
Defined.

(** ** The availability rule *)

(** X15. The availability rule passes exactly: a boolean; a text that is
    one of [true], [false], [1], [0]; a number that is 0 or 1; an array
    each element of which has one of these four texts as its text form,
    the empty array among them. An absent field, null, an object and every
    other text or number fail it. *)
Theorem availability_accepts (req : Request) :
  chain_errors Router.availability_rule req = []
  <-> match Handlers.body_field req "availability" with
      | JS.VBool _ => True
      | JS.VStr s => s ∈ ["true"; "false"; "1"; "0"]
      | JS.VNum (JS.Fin m e) => m = 0 \/ is_one m e
      | JS.VArr l => Forall (fun x => validator.isBoolean (toString x) = true) l
      | _ => False
      end.
Proof.
  rewrite availability_rule_passes. unfold boolean_value.
  destruct (Handlers.body_field req "availability") as [| |[]|[|[]|m e]|s|l|];
    try (split; done).
  - rewrite standard_ok_scalar, toString_number by done.
    destruct (Z.lt_trichotomy m 0) as [Hneg|[->|Hpos]].
    + assert (JS.NumberToString (JS.Fin m e) = String "-" (JS.positive_to_string (- m) e))
        as ->.
      { unfold JS.NumberToString.
        destruct (m =? 0) eqn:E0; [apply Z.eqb_eq in E0; lia|].
        destruct (m <? 0) eqn:E1; [done|apply Z.ltb_ge in E1; lia]. }
      split; [done|]. intros [?|[H _]]; [lia|]. exfalso. revert H.
      unfold JS.number_lt. rewrite Z.ltb_ge, Z.mul_1_l.
      pose proof (pow10_pos (e - Z.min e 0)). pose proof (pow10_pos (0 - Z.min e 0)). nia.
    + split; [auto|done].
    + rewrite NumberToString_positive by done.
      rewrite <- positive_to_string_one by done.
      destruct (positive_to_string_head m e Hpos) as (x & y & -> & Hx & Hy).
      unfold validator.isBoolean. case_bool_decide as Hin.
      * split; [intros _|done]. right.
        rewrite !elem_of_cons, elem_of_nil in Hin.
        destruct Hin as [H|[H|[H|[H|[]]]]]; try done; simplify_eq; try done.
        by destruct Hy.
      * split; [done|]. intros [?|H]; [lia|]. exfalso. apply Hin. rewrite H.
        rewrite !elem_of_cons. auto.
  - rewrite standard_ok_scalar, toString_VStr by done. unfold validator.isBoolean.
    case_bool_decide; split; done.
  - unfold standard_ok. simpl values_of.
    rewrite forallb_forall, Forall_forall. by setoid_rewrite list_elem_of_In.
Qed.
